(** * Verification of the web-page-to-Markdown tool (生成markdown.py)

    A shallow embedding of [FetchThread.run] and of the [MarkdownMerger]
    handlers [start_fetch], [fetch_completed], [get_filename_from_url] and
    [save_markdown], with the properties the specification states about
    them.

    Conventions.
    - A Python [str] is a [string]: the sequence of its UTF-8 bytes.  All
      separators and all characters the program tests for are ASCII, and an
      ASCII byte never occurs inside a multi-byte UTF-8 sequence, so
      splitting, searching and substituting on bytes agree with the same
      operations on code points.
    - A Python [int] that counts something is a [nat].
    - A mutable Python [list] of strings lives in a store ([gmap] from
      references to list values), so that aliasing and [list.copy] are
      visible. *)

From Stdlib Require Import Ascii String List Arith Lia.
From stdpp Require Import base option list gmap strings pretty.

(** ** Characters and string primitives *)

Module Py.

Definition chr (n : nat) : ascii := Ascii.ascii_of_nat n.

(** The text of one character. *)
Definition str1 (c : ascii) : string := String c EmptyString.

(** ["\n"] *)
Definition LF : string := str1 (chr 10).

(** [sub in s] for strings. *)
Fixpoint contains (sub s : string) : bool :=
  String.prefix sub s ||
  match s with
  | EmptyString => false
  | String _ s' => contains sub s'
  end.

(** [s[n:]] *)
Fixpoint drop (n : nat) (s : string) : string :=
  match n, s with
  | S k, String _ s' => drop k s'
  | _, _ => s
  end.

(** [s[:n]] *)
Fixpoint take (n : nat) (s : string) : string :=
  match n, s with
  | S k, String c s' => String c (take k s')
  | _, _ => EmptyString
  end.

(** [s.split(sep)] for a non-empty [sep]: the pieces between the leftmost
    non-overlapping occurrences of [sep], scanning from the left.  [skip]
    counts the characters of a matched separator still to be passed.
    (Python raises [ValueError] on an empty separator; the program never
    passes one.) *)
Fixpoint split_go (sep : string) (skip : nat) (s : string) : list string :=
  match s with
  | EmptyString => [EmptyString]
  | String c s' =>
      match skip with
      | S k => split_go sep k s'
      | O =>
          if String.prefix sep s
          then EmptyString :: split_go sep (Nat.pred (String.length sep)) s'
          else match split_go sep O s' with
               | piece :: rest => String c piece :: rest
               | [] => [str1 c]
               end
      end
  end.

Definition split (sep s : string) : list string := split_go sep 0 s.

(** [s.rpartition(sep)] when [sep] occurs: the text before and after the
    last occurrence. *)
Fixpoint rpartition (sep s : string) : option (string * string) :=
  match s with
  | EmptyString => None
  | String c s' =>
      match rpartition sep s' with
      | Some (before, after) => Some (String c before, after)
      | None =>
          if String.prefix sep s
          then Some (EmptyString, drop (String.length sep) s)
          else None
      end
  end.

(** [s.rsplit(sep, 1)]: split once, at the last occurrence of [sep]. *)
Definition rsplit1 (sep s : string) : list string :=
  match rpartition sep s with
  | Some (before, after) => [before; after]
  | None => [s]
  end.

(** [''.join(parts)] *)
Definition join (parts : list string) : string :=
  fold_right String.append EmptyString parts.

(** [s.startswith(p)] *)
Definition startswith (s p : string) : bool := String.prefix p s.

(** [s * n] *)
Fixpoint repeat (s : string) (n : nat) : string :=
  match n with
  | O => EmptyString
  | S k => s +:+ repeat s k
  end.

End Py.

(** ** Filename derivation: [MarkdownMerger.get_filename_from_url] *)

(** The character class of the [re.sub] call: less-than, greater-than,
    colon, double quote (34), slash, backslash (92), bar, question mark and
    asterisk. *)
Definition illegal_chars : list ascii :=
  ["<"%char; ">"%char; ":"%char; Py.chr 34; "/"%char; Py.chr 92;
   "|"%char; "?"%char; "*"%char].

Definition is_illegal (c : ascii) : bool :=
  existsb (Ascii.eqb c) illegal_chars.

(** [re.sub(illegal_class, '_', s)] *)
Fixpoint re_sub_illegal (s : string) : string :=
  match s with
  | EmptyString => EmptyString
  | String c s' =>
      String (if is_illegal c then "_"%char else c) (re_sub_illegal s')
  end.

(** No character of [s] is in the illegal class. *)
Fixpoint clean (s : string) : bool :=
  match s with
  | EmptyString => true
  | String c s' => negb (is_illegal c) && clean s'
  end.

Definition is_empty (s : string) : bool :=
  match s with EmptyString => true | _ => false end.

(** [l[-1]] and [l[-2]]; the default stands for [IndexError], which the
    callers below never reach. *)
Definition last_item (l : list string) : string := List.last l EmptyString.
Definition item (i : nat) (l : list string) : string := List.nth i l EmptyString.

Definition get_filename_from_url (url : string) : string :=
  (* path = url.split('://')[-1].split('?')[0].split('#')[0] *)
  let path :=
    item 0 (Py.split "#" (item 0 (Py.split "?" (last_item (Py.split "://" url))))) in
  (* parts = path.split('/') *)
  let parts := Py.split "/" path in
  (* domain = parts[0] if parts else 'page' *)
  let domain := match parts with [] => "page" | d :: _ => d end in
  (* path_parts = [p for p in parts[1:] if p] *)
  let path_parts := List.filter (fun p => negb (is_empty p)) (List.tl parts) in
  let n := List.length path_parts in
  let filename :=
    if 2 <=? n then
      item (n - 2) path_parts +:+ "_" +:+ item (n - 1) path_parts
    else if n =? 1 then
      item 0 (Py.split "." domain) +:+ "_" +:+ item 0 path_parts
    else
      item 0 (Py.split "." domain) in
  (* filename = re.sub(illegal_class, '_', filename) *)
  let filename := re_sub_illegal filename in
  (* filename = filename.rsplit('.', 1)[0] if '.' in filename else filename *)
  let filename :=
    if Py.contains "." filename then item 0 (Py.rsplit1 "." filename)
    else filename in
  (* return filename or 'page' *)
  if is_empty filename then "page" else filename.

(** ** Fetch results and the worker's signals *)

(** One entry of the result batch: the dict with keys url, content and
    success that [run] appends. *)
Record FetchResult := mkResult {
  url : string;
  content : string;
  success : bool
}.

(** [FetchThread.progress] carries two ints, [FetchThread.finished] a list. *)
Inductive Signal :=
| progress (current total : nat)
| finished (results : list FetchResult).

(** What a call returns: a value, or an exception [e] given by [str(e)]. *)
Inductive Outcome (A : Type) :=
| Returned (a : A)
| Raised (e : string).
Arguments Returned {A} a.
Arguments Raised {A} e.

(** The response object as far as [run] reads it: the status that
    [raise_for_status] inspects and [response.text] decoded with the
    apparent encoding. *)
Record Response := mkResponse {
  status_code : nat;
  text : string
}.

(** ** The worker: [FetchThread.run] *)

Section Fetch.

(** The network and the html2text converter are collaborators outside the
    program.  [World] is their state; each call may read and change it. *)
Variable World : Type.
Variable requests_get : string -> World -> Outcome Response * World.
Variable raise_for_status : Response -> option string.
Variable handle : string -> World -> Outcome string * World.

(** The body of the [try] for one URL. *)
Definition try_body (u : string) (w : World) : Outcome string * World :=
  match requests_get u w with
  | (Raised e, w1) => (Raised e, w1)
  | (Returned response, w1) =>
      match raise_for_status response with
      | Some e => (Raised e, w1)
      | None => handle (text response) w1
      end
  end.

(** One iteration of the loop body up to the [append]. *)
Definition fetch_one (u : string) (w : World) : FetchResult * World :=
  match try_body u w with
  | (Returned markdown_content, w') =>
      (mkResult u markdown_content true, w')
  | (Raised e, w') =>
      (mkResult u ("错误: " +:+ e) false, w')
  end.

(** The [for i, url in enumerate(self.urls)] loop, entered at index [i]
    with [rest] still to visit; [total] is [len(self.urls)]. *)
Fixpoint run_loop (total i : nat) (rest : list string)
    (results : list FetchResult) (emitted : list Signal) (w : World)
  : list FetchResult * list Signal * World :=
  match rest with
  | [] => (results, emitted, w)
  | u :: rest' =>
      let '(r, w') := fetch_one u w in
      run_loop total (S i) rest'
               (results ++ [r]) (emitted ++ [progress (i + 1) total]) w'
  end.

(** [run]: the signals emitted, in order, and the world left behind. *)
Definition run (urls : list string) (w : World) : list Signal * World :=
  let '(results, emitted, w') := run_loop (length urls) 0 urls [] [] w in
  (emitted ++ [finished results], w').

(** The batch [run] hands to [finished.emit]. *)
Definition run_results (urls : list string) (w : World) : list FetchResult :=
  (run_loop (length urls) 0 urls [] [] w).1.1.

(** The world in which the URL at index [i] is fetched. *)
Definition world_at (urls : list string) (i : nat) (w : World) : World :=
  (run_loop (length urls) 0 (take i urls) [] [] w).2.

(** The results of fetching [rest] one after the other from world [w], and
    the world afterwards: what the loop computes, without its
    accumulators. *)
Fixpoint batch (rest : list string) (w : World) : list FetchResult :=
  match rest with
  | [] => []
  | u :: rest' => (fetch_one u w).1 :: batch rest' (fetch_one u w).2
  end.

Fixpoint world_after (rest : list string) (w : World) : World :=
  match rest with
  | [] => w
  | u :: rest' => world_after rest' (fetch_one u w).2
  end.

(** The progress signals for positions [i+1 .. i+n]. *)
Definition progress_from (total i n : nat) : list Signal :=
  map (fun k => progress k total) (seq (i + 1) n).

End Fetch.

(** [requests.Response.raise_for_status], from the requests library (not
    part of this repository): it raises [HTTPError] exactly for a status
    from 400 to 599; [http_error_msg] is the text of that error. *)
Definition requests_raise_for_status (http_error_msg : Response -> string)
    (response : Response) : option string :=
  if (400 <=? status_code response) && (status_code response <? 600)
  then Some (http_error_msg response)
  else None.

(** ** The session: store, main window and worker thread *)

(** Message boxes the window has shown. *)
Inductive MessageBox :=
| warning (title body : string)
| information (title body : string)
| critical (title body : string).

(** The attributes and widget states of [MarkdownMerger] that the handlers
    read or write.  [url_list] is a reference into the store; a button is
    its enabled flag; [preview_text] is the string last handed to
    [setPlainText] of the read-only [QTextEdit]; what [toPlainText] returns
    for it is [qt_plain_text] below. *)
Record MarkdownMerger := mkWindow {
  url_list : nat;
  url_list_widget : list string;
  markdown_results : list FetchResult;
  preview_text : string;
  merge_radio : bool;
  fetch_btn : bool;
  save_btn : bool;
  progress_bar_visible : bool;
  progress_bar_value : Z;
  progress_bar_maximum : nat;
  status_bar : string;
  message_boxes : list MessageBox
}.

(** A [FetchThread] in flight: [urls] is the reference it was constructed
    with, [next] the position of the list iterator, [results] the local
    list and [emitted] the signals sent so far; [returned] is set once [run]
    has returned, which is a step of its own after [finished] was
    emitted. *)
Record FetchThread := mkThread {
  urls : nat;
  next : nat;
  results : list FetchResult;
  emitted : list Signal;
  returned : bool
}.

Record Session (World : Type) := mkSession {
  store : gmap nat (list string);
  window : MarkdownMerger;
  fetch_thread : option FetchThread;
  world : World
}.
Arguments mkSession {World}.
Arguments store {World}.
Arguments window {World}.
Arguments fetch_thread {World}.
Arguments world {World}.

(** The list object a reference points to. *)
Definition deref (st : gmap nat (list string)) (r : nat) : list string :=
  default [] (st !! r).

(** [l.pop(i)] for [0 <= i]: [None] stands for [IndexError]. *)
Definition pop (i : nat) (l : list string) : option (list string) :=
  if i <? length l then Some (delete i l) else None.

(** [MarkdownMerger.__init__]: two fresh empty lists, the widgets as
    [init_ui] leaves them (a new [QProgressBar] has value -1 and maximum
    100). *)
Definition init_window : MarkdownMerger :=
  mkWindow 0 [] [] EmptyString true true false false (-1) 100 "就绪" [].

Definition init_session {World} (w : World) : Session World :=
  mkSession {[ 0 := [] ]} init_window None w.

Section Handlers.

Variable World : Type.
Variable requests_get : string -> World -> Outcome Response * World.
Variable raise_for_status : Response -> option string.
Variable handle : string -> World -> Outcome string * World.

Implicit Type s : Session World.

Definition with_window s (win : MarkdownMerger) : Session World :=
  mkSession (store s) win (fetch_thread s) (world s).

Definition show_box (b : MessageBox) (win : MarkdownMerger) : MarkdownMerger :=
  mkWindow (url_list win) (url_list_widget win) (markdown_results win)
    (preview_text win) (merge_radio win) (fetch_btn win) (save_btn win)
    (progress_bar_visible win) (progress_bar_value win)
    (progress_bar_maximum win) (status_bar win) (message_boxes win ++ [b]).

Definition show_message (msg : string) (win : MarkdownMerger) : MarkdownMerger :=
  mkWindow (url_list win) (url_list_widget win) (markdown_results win)
    (preview_text win) (merge_radio win) (fetch_btn win) (save_btn win)
    (progress_bar_visible win) (progress_bar_value win)
    (progress_bar_maximum win) msg (message_boxes win).

Definition set_url_list_widget (items : list string) (win : MarkdownMerger)
  : MarkdownMerger :=
  mkWindow (url_list win) items (markdown_results win)
    (preview_text win) (merge_radio win) (fetch_btn win) (save_btn win)
    (progress_bar_visible win) (progress_bar_value win)
    (progress_bar_maximum win) (status_bar win) (message_boxes win).

(** [add_url], where [u] is [self.url_input.text().strip()]. *)
Definition add_url (u : string) s : Session World :=
  if is_empty u then s
  else if Py.startswith u "http://" || Py.startswith u "https://" then
    let win := window s in
    mkSession
      (<[ url_list win := deref (store s) (url_list win) ++ [u] ]> (store s))
      (show_message ("已添加: " +:+ u)
         (set_url_list_widget (url_list_widget win ++ [u]) win))
      (fetch_thread s) (world s)
  else
    with_window s
      (show_box (warning "无效URL" "URL必须以http://或https://开头") (window s)).

(** [remove_url], where [current_row] is the widget's selected row, [-1]
    for none.  An [IndexError] from [pop] ends the handler before the
    widget is touched. *)
Definition remove_url (current_row : Z) s : Session World :=
  if (0 <=? current_row)%Z then
    let win := window s in
    match pop (Z.to_nat current_row) (deref (store s) (url_list win)) with
    | Some l =>
        mkSession (<[ url_list win := l ]> (store s))
          (set_url_list_widget
             (delete (Z.to_nat current_row) (url_list_widget win)) win)
          (fetch_thread s) (world s)
    | None => s
    end
  else s.

Definition clear_urls s : Session World :=
  let win := window s in
  mkSession (<[ url_list win := [] ]> (store s))
    (set_url_list_widget [] win) (fetch_thread s) (world s).

(** [start_fetch].  [self.url_list.copy()] allocates a new list object;
    the thread keeps the reference to it. *)
Definition start_fetch s : Session World :=
  let win := window s in
  let l := deref (store s) (url_list win) in
  match l with
  | [] => with_window s (show_box (warning "提示" "请先添加URL") win)
  | _ :: _ =>
      let copy := fresh (dom (store s)) in
      mkSession
        (<[ copy := l ]> (store s))
        (mkWindow (url_list win) (url_list_widget win) (markdown_results win)
           (preview_text win) (merge_radio win)
           false false true 0 (length l)
           "正在抓取..." (message_boxes win))
        (Some (mkThread copy 0 [] [] false))
        (world s)
  end.

(** [update_progress], the slot of [progress]. *)
Definition update_progress (current total : nat) s : Session World :=
  let win := window s in
  with_window s
    (mkWindow (url_list win) (url_list_widget win) (markdown_results win)
       (preview_text win) (merge_radio win) (fetch_btn win) (save_btn win)
       (progress_bar_visible win) (Z.of_nat current) (progress_bar_maximum win)
       ("抓取: " +:+ pretty current +:+ "/" +:+ pretty total)
       (message_boxes win)).

(** The three pieces [fetch_completed] appends for one result. *)
Definition merged_pieces (result : FetchResult) : list string :=
  [ "# " +:+ url result +:+ Py.LF +:+ Py.LF;
    content result;
    Py.LF +:+ Py.LF +:+ "---" +:+ Py.LF +:+ Py.LF ].

(** [''.join(merged_content)] after the loop of [fetch_completed]. *)
Definition merged_content (results : list FetchResult) : string :=
  Py.join (concat (map merged_pieces results)).

(** [sum(1 for r in results if r['success'])] *)
Definition success_count (results : list FetchResult) : nat :=
  length (filter (fun r => success r = true) results).

(** [fetch_completed], the slot of [finished]. *)
Definition fetch_completed (results : list FetchResult) s : Session World :=
  let win := window s in
  with_window s
    (mkWindow (url_list win) (url_list_widget win) results
       (merged_content results) (merge_radio win)
       true true false (progress_bar_value win) (progress_bar_maximum win)
       ("完成: " +:+ pretty (success_count results) +:+ "/"
          +:+ pretty (length results) +:+ " 成功")
       (message_boxes win)).

Definition is_finished (x : Signal) : bool :=
  match x with finished _ => true | progress _ _ => false end.

(** Whether the thread is past [self.finished.emit(results)]. *)
Definition finished_emitted (t : FetchThread) : bool :=
  existsb is_finished (emitted t).

(** One scheduling step of the worker: the list iterator of the [for]
    loop reads the list object behind [urls] at position [next]; when the
    position is past the end the loop is over and [finished] is emitted;
    the step after the emit, [run] returns.  The slot of [finished] can
    therefore run while the thread has not yet returned. *)
Definition worker_step s : Session World :=
  match fetch_thread s with
  | None => s
  | Some t =>
      if returned t then s
      else
        let l := deref (store s) (urls t) in
        match l !! next t with
        | Some u =>
            let '(r, w') :=
              fetch_one World requests_get raise_for_status handle u (world s) in
            mkSession (store s) (window s)
              (Some (mkThread (urls t) (S (next t)) (results t ++ [r])
                       (emitted t ++ [progress (next t + 1) (length l)])
                       false))
              w'
        | None =>
            if finished_emitted t then
              mkSession (store s) (window s)
                (Some (mkThread (urls t) (next t) (results t) (emitted t) true))
                (world s)
            else
              mkSession (store s) (window s)
                (Some (mkThread (urls t) (next t) (results t)
                         (emitted t ++ [finished (results t)]) false))
                (world s)
        end
  end.

End Handlers.

(** The user picks the second radio button. *)
Definition split_radio_clicked (win : MarkdownMerger) : MarkdownMerger :=
  mkWindow (url_list win) (url_list_widget win) (markdown_results win)
    (preview_text win) false (fetch_btn win) (save_btn win)
    (progress_bar_visible win) (progress_bar_value win)
    (progress_bar_maximum win) (status_bar win) (message_boxes win).

(** ** Interleaving the worker with the handlers that change the URL list *)

(** While a batch is in flight the fetch button is disabled; the user can
    still add, remove and clear URLs.  A schedule interleaves those handler
    runs with steps of the worker. *)
Inductive Event :=
| AddUrl (u : string)
| RemoveUrl (current_row : Z)
| ClearUrls
| WorkerStep.

Section Schedule.

Variable World : Type.
Variable requests_get : string -> World -> Outcome Response * World.
Variable raise_for_status : Response -> option string.
Variable handle : string -> World -> Outcome string * World.

Definition exec_event (e : Event) (s : Session World) : Session World :=
  match e with
  | AddUrl u => add_url World u s
  | RemoveUrl current_row => remove_url World current_row s
  | ClearUrls => clear_urls World s
  | WorkerStep => worker_step World requests_get raise_for_status handle s
  end.

Definition exec (schedule : list Event) (s : Session World) : Session World :=
  fold_left (fun s e => exec_event e s) schedule s.

Definition is_worker_step (e : Event) : bool :=
  match e with WorkerStep => true | _ => false end.

(** The signals the session's thread has emitted so far. *)
Definition signals (s : Session World) : list Signal :=
  match fetch_thread s with
  | Some t => emitted t
  | None => []
  end.

(** What a handler of the URL list may change: the list object behind
    [self.url_list] and the window's widgets, nothing else. *)
Definition frame (s s' : Session World) : Prop :=
  fetch_thread s' = fetch_thread s /\ world s' = world s /\
  url_list (window s') = url_list (window s) /\
  forall r, r <> url_list (window s) -> store s' !! r = store s !! r.

(** The state of a batch for the list value [l], launched in world [w0],
    after [k] steps of the worker: the thread reads its own list object,
    which still holds [l], and has emitted the first [k] signals of
    [run l w0]. *)
Definition in_flight (l : list string) (w0 : World) (k : nat)
    (s : Session World) : Prop :=
  exists t,
    fetch_thread s = Some t /\
    urls t <> url_list (window s) /\
    store s !! urls t = Some l /\
    next t = k `min` length l /\
    results t = batch World requests_get raise_for_status handle (take k l) w0 /\
    world s = world_after World requests_get raise_for_status handle (take k l) w0 /\
    emitted t = take k (run World requests_get raise_for_status handle l w0).1 /\
    returned t = bool_decide (S (length l) < k).

(** The number of worker steps in a schedule. *)
Definition worker_steps (schedule : list Event) : nat :=
  length (List.filter is_worker_step schedule).

End Schedule.

(** ** The text a [QTextEdit] gives back *)

(** [QTextEdit.toPlainText()] of a widget whose text was set with
    [setPlainText(s)]: setting the text turns CR LF and a lone CR into line
    breaks, and reading it returns a line feed for every line break, for
    U+2028, U+2029 and the two frame markers U+FDD0 and U+FDD1, and a space
    for U+00A0.  On the UTF-8 bytes of a text: 0D 0A and 0D become 0A,
    C2 A0 becomes 20, E2 80 A8, E2 80 A9, EF B7 90 and EF B7 91 become 0A.
    [skip] counts the bytes of a replaced sequence still to be passed. *)
Definition CR : string := Py.str1 (Py.chr 13).
Definition CRLF : string := String (Py.chr 13) Py.LF.
Definition NBSP : string := String (Py.chr 194) (Py.str1 (Py.chr 160)).
Definition LSEP : string :=
  String (Py.chr 226) (String (Py.chr 128) (Py.str1 (Py.chr 168))).
Definition PSEP : string :=
  String (Py.chr 226) (String (Py.chr 128) (Py.str1 (Py.chr 169))).
Definition FRAME_BEGIN : string :=
  String (Py.chr 239) (String (Py.chr 183) (Py.str1 (Py.chr 144))).
Definition FRAME_END : string :=
  String (Py.chr 239) (String (Py.chr 183) (Py.str1 (Py.chr 145))).

(** The three-byte sequences read back as a line feed. *)
Definition qt_breaks : list string := [LSEP; PSEP; FRAME_BEGIN; FRAME_END].

Fixpoint qt_go (skip : nat) (s : string) : string :=
  match s with
  | EmptyString => EmptyString
  | String c s' =>
      match skip with
      | S k => qt_go k s'
      | O =>
          if String.prefix CRLF s then String (Py.chr 10) (qt_go 1 s')
          else if String.prefix CR s then String (Py.chr 10) (qt_go 0 s')
          else if String.prefix NBSP s then String " "%char (qt_go 1 s')
          else if existsb (fun b => String.prefix b s) qt_breaks
               then String (Py.chr 10) (qt_go 2 s')
          else String c (qt_go 0 s')
      end
  end.

Definition qt_plain_text (s : string) : string := qt_go 0 s.

(** A text the widget gives back unchanged: it holds no CR, no U+00A0 and
    none of the sequences of [qt_breaks]. *)
Definition qt_safe (s : string) : bool :=
  negb (Py.contains CR s) && negb (Py.contains NBSP s)
  && forallb (fun b => negb (Py.contains b s)) qt_breaks.

(** ** Saving: the file system and [MarkdownMerger.save_markdown] *)

(** How the file system can refuse a path: the path cannot be examined at
    all (name too long, no permission; [Path.exists] re-raises such an
    [OSError], and [open] raises it too); [open] raises and nothing is
    created; or a later call raises after [written] characters reached the
    file. *)
Inductive Fault :=
| stat_fails (e : string)
| open_fails (e : string)
| write_fails (e : string) (written : nat).

(** One call of [open(file_path, 'w')] with what was to be written and
    whether the [with] block completed. *)
Record Write := mkWrite {
  w_path : string;
  w_data : string;
  w_ok : bool
}.

(** What a save leaves behind: the window, the files, the lines printed,
    the writes tried, in order, and the exception that ended the handler
    when one was not caught. *)
Record Saved := mkSaved {
  saved_window : MarkdownMerger;
  saved_files : gmap string string;
  printed : list string;
  writes : list Write;
  uncaught : option string
}.

Section Save.

(** The files are a finite map from path to text, the text being the
    string handed to [f.write] of the text-mode file object.  [fault] says,
    for the files as they are and a path, how the file system refuses that
    path, if it does. *)
Variable fault : gmap string string -> string -> option Fault.

(** [with open(file_path, 'w', encoding='utf-8') as f: f.write(data)] *)
Definition write_file (file_path data : string) (files : gmap string string)
  : Outcome unit * gmap string string :=
  match fault files file_path with
  | None => (Returned tt, <[ file_path := data ]> files)
  | Some (stat_fails e) => (Raised e, files)
  | Some (open_fails e) => (Raised e, files)
  | Some (write_fails e written) =>
      (Raised e, <[ file_path := Py.take written data ]> files)
  end.

(** [Path(folder) / name], for a folder path as the directory dialog
    returns it (no trailing separator, so not the root folder) and a name
    without separator. *)
Definition path_join (folder name : string) : string :=
  folder +:+ "/" +:+ name.

(** The [OSError] that [file_path.exists()] lets through, if any. *)
Definition stat_error (files : gmap string string) (file_path : string)
  : option string :=
  match fault files file_path with
  | Some (stat_fails e) => Some e
  | _ => None
  end.

(** [file_path.exists()] *)
Definition path_exists (files : gmap string string) (file_path : string)
  : Outcome bool :=
  match stat_error files file_path with
  | Some e => Raised e
  | None => Returned (bool_decide (is_Some (files !! file_path)))
  end.

(** The [while file_path.exists()] loop, run for at most [fuel] tests of
    the condition: the path it ends with, or the exception the condition
    raised; [None] when the fuel is used up. *)
Fixpoint free_path_loop (fuel : nat) (files : gmap string string)
    (folder filename file_path : string) (counter : nat)
  : option (Outcome string) :=
  match fuel with
  | O => None
  | S fuel' =>
      match path_exists files file_path with
      | Raised e => Some (Raised e)
      | Returned true =>
          free_path_loop fuel' files folder filename
            (path_join folder (filename +:+ "_" +:+ pretty counter +:+ ".md"))
            (counter + 1)
      | Returned false => Some (Returned file_path)
      end
  end.

(** The collision handling of one result: [file_path] after the loop.
    One more test than there are files always suffices (see
    [free_path_total]). *)
Definition free_path (files : gmap string string) (folder filename : string)
  : option (Outcome string) :=
  free_path_loop (S (size files)) files folder filename
    (path_join folder (filename +:+ ".md")) 1.

(** What the two [f.write] calls of the split branch put in a file. *)
Definition split_data (result : FetchResult) : string :=
  ("# " +:+ url result +:+ Py.LF +:+ Py.LF) +:+ content result.

(** The [for result in self.markdown_results] loop of the split branch:
    the count, the files, the lines printed, the writes tried and, when the
    existence test raised, its exception, which is outside the [try] and
    ends the loop there.  [None] only if [free_path] ran out of fuel. *)
Fixpoint save_split_loop (folder : string) (rest : list FetchResult)
    (success_count : nat) (files : gmap string string)
    (out : list string) (tried : list Write)
  : option (nat * gmap string string * list string * list Write
            * option string) :=
  match rest with
  | [] => Some (success_count, files, out, tried, None)
  | result :: rest' =>
      if success result then
        let filename := get_filename_from_url (url result) in
        match free_path files folder filename with
        | None => None
        | Some (Raised e) => Some (success_count, files, out, tried, Some e)
        | Some (Returned file_path) =>
            match write_file file_path (split_data result) files with
            | (Returned _, files') =>
                save_split_loop folder rest' (success_count + 1) files' out
                  (tried ++ [mkWrite file_path (split_data result) true])
            | (Raised e, files') =>
                save_split_loop folder rest' success_count files'
                  (out ++ ["保存失败 " +:+ filename +:+ ": " +:+ e])
                  (tried ++ [mkWrite file_path (split_data result) false])
            end
        end
      else save_split_loop folder rest' success_count files out tried
  end.

(** The text of the final message box of the split branch. *)
Definition split_tally (success_count total : nat) (folder : string) : string :=
  "成功保存 " +:+ pretty success_count +:+ "/" +:+ pretty total
    +:+ " 个文件到:" +:+ Py.LF +:+ folder.

(** [save_markdown].  [chosen] is what the file dialog of the active
    branch returned: the destination path or folder, empty when the user
    cancelled.  An exception of the existence test leaves the handler
    before its message box. *)
Definition save_markdown (chosen : string) (win : MarkdownMerger)
    (files : gmap string string) : option Saved :=
  match markdown_results win with
  | [] => Some (mkSaved win files [] [] None)
  | _ :: _ =>
      if merge_radio win then
        if is_empty chosen then Some (mkSaved win files [] [] None)
        else
          (* content = self.preview_text.toPlainText() *)
          let content := qt_plain_text (preview_text win) in
          match write_file chosen content files with
          | (Returned _, files') =>
              Some (mkSaved
                      (show_box (information "成功" ("已保存到:" +:+ Py.LF +:+ chosen)) win)
                      files' [] [mkWrite chosen content true] None)
          | (Raised e, files') =>
              Some (mkSaved
                      (show_box (critical "错误" ("保存失败:" +:+ Py.LF +:+ e)) win)
                      files' [] [mkWrite chosen content false] None)
          end
      else
        if is_empty chosen then Some (mkSaved win files [] [] None)
        else
          match save_split_loop chosen (markdown_results win) 0 files [] [] with
          | None => None
          | Some (success_count, files', out, tried, Some e) =>
              Some (mkSaved win files' out tried (Some e))
          | Some (success_count, files', out, tried, None) =>
              Some (mkSaved
                      (show_box
                         (information "完成"
                            (split_tally success_count
                               (length (markdown_results win)) chosen))
                         win)
                      files' out tried None)
          end
  end.

End Save.

(** The names the collision loop goes through for a base name: the plain
    name first, then the name with suffix 1, 2, ... *)
Definition candidate (folder filename : string) (k : nat) : string :=
  match k with
  | O => path_join folder (filename +:+ ".md")
  | S _ => path_join folder (filename +:+ "_" +:+ pretty k +:+ ".md")
  end.

(** Where the collision loop stops for a base name: every candidate
    before the [k]-th could be examined and is there, and the [k]-th either
    cannot be examined, which raises, or is free, which makes it the
    result. *)
Definition stops_at (fault : gmap string string -> string -> option Fault)
    (files : gmap string string) (folder filename : string) (k : nat)
    (o : Outcome string) : Prop :=
  (forall i, i < k ->
     stat_error fault files (candidate folder filename i) = None
     /\ is_Some (files !! candidate folder filename i))
  /\ match stat_error fault files (candidate folder filename k) with
     | Some e => o = Raised e
     | None => files !! candidate folder filename k = None
               /\ o = Returned (candidate folder filename k)
     end.

(** The number of writes that completed. *)
Definition written (tried : list Write) : nat :=
  length (List.filter w_ok tried).

(** ** The specification's words

    Two definitions that follow the text of the specification, to compare
    with the program: the eight steps of the filename derivation and the
    merged document. *)

Module Spec.

(** The text before the first occurrence of [sep]; all of [s] when there
    is none. *)
Fixpoint before_first (sep s : string) : string :=
  match s with
  | EmptyString => EmptyString
  | String c s' =>
      if String.prefix sep s then EmptyString
      else String c (before_first sep s')
  end.

(** The text after the first occurrence of [sep], when there is one. *)
Fixpoint after_first (sep s : string) : option string :=
  match s with
  | EmptyString => None
  | String c s' =>
      if String.prefix sep s then Some (Py.drop (String.length sep) s)
      else after_first sep s'
  end.

(** Step 1: strip the scheme prefix, the query string and the fragment. *)
Definition strip_scheme (u : string) : string :=
  match after_first "://" u with
  | Some rest => rest
  | None => u
  end.

Definition strip_query_and_fragment (s : string) : string :=
  before_first "#" (before_first "?" s).

(** Step 2: split on the slash; the first segment is the host, the later
    non-empty segments are the path segments. *)
Definition host (segments : list string) : string :=
  List.hd EmptyString segments.

Definition path_segments (segments : list string) : list string :=
  List.filter (fun p => negb (is_empty p)) (List.tl segments).

(** The host's first label: the text before its first dot. *)
Definition first_label (h : string) : string := before_first "." h.

(** Steps 3 to 5. *)
Definition base_name (h : string) (segs : list string) : string :=
  match List.rev segs with
  | last :: second_to_last :: _ => second_to_last +:+ "_" +:+ last
  | [only] => first_label h +:+ "_" +:+ only
  | [] => first_label h
  end.

(** Step 7: truncate at the last dot, when there is one. *)
Definition drop_extension (name : string) : string :=
  match Py.rpartition "." name with
  | Some (before, _) => before
  | None => name
  end.

Definition deriveName (u : string) : string :=
  let segments := Py.split "/" (strip_query_and_fragment (strip_scheme u)) in
  let name := base_name (host segments) (path_segments segments) in  (* 2-5 *)
  let name := re_sub_illegal name in                                 (* 6 *)
  let name := drop_extension name in                                 (* 7 *)
  if is_empty name then "page" else name.                            (* 8 *)

(** The merged document: for every result, in batch order, a heading line
    with the URL, a blank line, the content and a horizontal rule. *)
Definition heading_line (u : string) : string := "# " +:+ u +:+ Py.LF.
Definition blank_line : string := Py.LF.
Definition horizontal_rule : string :=
  Py.LF +:+ Py.LF +:+ "---" +:+ Py.LF +:+ Py.LF.

Fixpoint merged_document (results : list FetchResult) : string :=
  match results with
  | [] => EmptyString
  | r :: rest =>
      heading_line (url r) +:+ blank_line +:+ content r +:+ horizontal_rule
        +:+ merged_document rest
  end.

End Spec.

(** ** Example scenarios *)

(** A test network: [https://ok.test/a] answers 200 with a small page,
    every other URL answers with status [other]. *)
Definition test_get (other : nat) (u : string) (w : unit)
  : Outcome Response * unit :=
  if String.eqb u "https://ok.test/a"
  then (Returned (mkResponse 200 "<p>hello</p>"), w)
  else (Returned (mkResponse other "<p>body</p>"), w).

(** A test converter that returns the text it is given. *)
Definition test_handle (t : string) (w : unit) : Outcome string * unit :=
  (Returned t, w).

Definition test_msg (response : Response) : string :=
  pretty (status_code response) +:+ " Error".

(** A session with two URLs added and, while the batch is in flight, the
    list cleared and another URL added. *)
Definition two_urls : list string :=
  ["https://ok.test/a"; "https://bad.test/x"].

Definition two_url_session : Session unit :=
  add_url unit "https://bad.test/x"
    (add_url unit "https://ok.test/a" (init_session tt)).

Definition busy_schedule : list Event :=
  [WorkerStep; ClearUrls; WorkerStep; AddUrl "https://later.test/"; WorkerStep].

(** No write fails. *)
Definition no_fault (files : gmap string string) (file_path : string)
  : option Fault := None.

(** The batch of the specification's example 4: one page fetched, one
    failed. *)
Definition example_batch : list FetchResult :=
  [mkResult "https://ok.test/a" "hello" true;
   mkResult "https://bad.test/x" "错误: boom" false].

(** Two pages with the same derived name. *)
Definition same_name_batch : list FetchResult :=
  [mkResult "https://example.com/docs/guide.html" "one" true;
   mkResult "https://example.com/docs/guide.html?lang=en" "two" true].

(** A file system that takes names of at most 255 bytes: a longer last
    component cannot even be examined (ENAMETOOLONG). *)
Definition name_max_255 (folder : string) (files : gmap string string)
    (file_path : string) : option Fault :=
  if 255 <? String.length file_path - (String.length folder + 1)
  then Some (stat_fails "[Errno 36] File name too long")
  else None.

(** Two pages whose derived name has 251 bytes: with [.md] it fits in 255
    bytes, with [_1.md] it does not. *)
Definition long_name_url : string :=
  "https://example.com/" +:+ Py.repeat "a" 243.

Definition long_name_batch : list FetchResult :=
  [mkResult long_name_url "one" true;
   mkResult (long_name_url +:+ "?lang=en") "two" true].

(** A page whose text holds a no-break space (U+00A0). *)
Definition nbsp_batch : list FetchResult :=
  [mkResult "https://ok.test/a" ("10" +:+ NBSP +:+ "km") true].

(** The window once a batch has arrived in a new session. *)
Definition window_with (results : list FetchResult) : MarkdownMerger :=
  window (fetch_completed unit results (init_session tt)).

(** ** The running application: clicks, the worker and signal delivery *)

(** The test [add_url] makes on the scheme. *)
Definition valid_scheme (u : string) : bool :=
  Py.startswith u "http://" || Py.startswith u "https://".

(** The user picks the first radio button. *)
Definition merge_radio_clicked (win : MarkdownMerger) : MarkdownMerger :=
  mkWindow (url_list win) (url_list_widget win) (markdown_results win)
    (preview_text win) true (fetch_btn win) (save_btn win)
    (progress_bar_visible win) (progress_bar_value win)
    (progress_bar_maximum win) (status_bar win) (message_boxes win).

(** The whole application: the session, the number of signals of the
    current thread whose slot has run, and the files on disk. *)
Record App (World : Type) := mkApp {
  session : Session World;
  delivered : nat;
  disk : gmap string string
}.
Arguments mkApp {World}.
Arguments session {World}.
Arguments delivered {World}.
Arguments disk {World}.

(** What can happen next: the user acts on a widget, the worker thread
    takes a step, or the event loop runs the slot of the next queued
    signal.  [EnterUrl text] is a click on the add button when the input
    line holds a text that [strip()] turns into [text]. *)
Inductive Action :=
| EnterUrl (text : string)
| ClickRemove (current_row : Z)
| ClickClear
| ClickFetch
| ClickSave (chosen : string)
| PickMerged
| PickSplit
| Work
| Deliver.

Section Application.

Variable World : Type.
Variable requests_get : string -> World -> Outcome Response * World.
Variable raise_for_status : Response -> option string.
Variable handle : string -> World -> Outcome string * World.
Variable fault : gmap string string -> string -> option Fault.

(** [start_fetch] connects [progress] to [update_progress] and [finished]
    to [fetch_completed].  The signals come from the worker thread, so they
    are queued and their slots run in the main thread in the order of
    emission: one call of [deliver] runs the slot of the next one. *)
Definition deliver (a : App World) : App World :=
  match fetch_thread (session a) with
  | None => a
  | Some t =>
      match emitted t !! delivered a with
      | None => a
      | Some (progress current total) =>
          mkApp (update_progress World current total (session a))
                (S (delivered a)) (disk a)
      | Some (finished batch_results) =>
          mkApp (fetch_completed World batch_results (session a))
                (S (delivered a)) (disk a)
      end
  end.

(** A click on the fetch button: a disabled button does not emit
    [clicked]; a launch starts a new thread, none of whose signals has been
    delivered. *)
Definition click_fetch (a : App World) : App World :=
  if fetch_btn (window (session a)) then
    mkApp (start_fetch World (session a))
          (match deref (store (session a)) (url_list (window (session a))) with
           | [] => delivered a
           | _ :: _ => 0
           end)
          (disk a)
  else a.

(** A click on the save button, when it is enabled; [chosen] is the answer
    of the dialog. *)
Definition click_save (chosen : string) (a : App World) : App World :=
  if save_btn (window (session a)) then
    match save_markdown fault chosen (window (session a)) (disk a) with
    | Some saved =>
        mkApp (with_window World (session a) (saved_window saved))
              (delivered a) (saved_files saved)
    | None => a
    end
  else a.

Definition on_session (f : Session World -> Session World) (a : App World)
  : App World :=
  mkApp (f (session a)) (delivered a) (disk a).

Definition act (x : Action) (a : App World) : App World :=
  match x with
  | EnterUrl text => on_session (add_url World text) a
  | ClickRemove current_row => on_session (remove_url World current_row) a
  | ClickClear => on_session (clear_urls World) a
  | ClickFetch => click_fetch a
  | ClickSave chosen => click_save chosen a
  | PickMerged =>
      on_session (fun s => with_window World s (merge_radio_clicked (window s))) a
  | PickSplit =>
      on_session (fun s => with_window World s (split_radio_clicked (window s))) a
  | Work =>
      on_session (worker_step World requests_get raise_for_status handle) a
  | Deliver => deliver a
  end.

Definition run_actions (actions : list Action) (a : App World) : App World :=
  fold_left (fun a x => act x a) actions a.

(** The application right after [MarkdownMerger()] and [window.show()]. *)
Definition init_app (w : World) (files : gmap string string) : App World :=
  mkApp (init_session w) 0 files.

(** The states the application can be in. *)
Definition reachable (a : App World) : Prop :=
  exists actions w files, a = run_actions actions (init_app w files).

(** The URL list of a state. *)
Definition current_urls (a : App World) : list string :=
  deref (store (session a)) (url_list (window (session a))).

(** Invariant, the URL list: the list object exists, holds only URLs that
    passed the scheme test, and the list widget shows the same items. *)
Definition urls_ok (a : App World) : Prop :=
  exists l,
    store (session a) !! url_list (window (session a)) = Some l /\
    Forall (fun u => valid_scheme u = true) l /\
    url_list_widget (window (session a)) = l.

(** Invariant, the window: the preview is the text assembled from the
    stored batch, an enabled save button means a batch is stored, and the
    progress bar is within its range. *)
Definition window_ok (a : App World) : Prop :=
  let win := window (session a) in
  preview_text win = merged_content (markdown_results win) /\
  (save_btn win = true -> markdown_results win <> []) /\
  (progress_bar_value win <= Z.of_nat (progress_bar_maximum win))%Z.

(** Invariant, the thread: before the first launch the fetch button is
    enabled; afterwards the thread works on its own copy of a non-empty
    list, and either its [finished] signal is still to be delivered and both
    buttons are disabled, or everything was delivered, both buttons are
    enabled and the stored batch is the one the thread emitted. *)
Definition thread_ok (a : App World) : Prop :=
  let win := window (session a) in
  match fetch_thread (session a) with
  | None => fetch_btn win = true /\ save_btn win = false
  | Some t =>
      exists l w0 k,
        l <> [] /\
        in_flight World requests_get raise_for_status handle l w0 k (session a) /\
        delivered a <= length (emitted t) /\
        if decide (delivered a = S (length l)) then
          fetch_btn win = true /\ save_btn win = true /\
          markdown_results win
            = batch World requests_get raise_for_status handle l w0 /\
          progress_bar_visible win = false
        else
          fetch_btn win = false /\ save_btn win = false /\
          progress_bar_maximum win = length l /\
          progress_bar_value win = Z.of_nat (delivered a) /\
          progress_bar_visible win = true
  end.

Definition app_inv (a : App World) : Prop :=
  urls_ok a /\ window_ok a /\ thread_ok a.

End Application.

(** Two window states with the same batch, preview, buttons and progress
    bar; they may differ in the list widget, the radio buttons, the status
    line and the message boxes shown. *)
Definition same_controls (win win' : MarkdownMerger) : Prop :=
  markdown_results win' = markdown_results win /\
  preview_text win' = preview_text win /\
  fetch_btn win' = fetch_btn win /\
  save_btn win' = save_btn win /\
  progress_bar_visible win' = progress_bar_visible win /\
  progress_bar_value win' = progress_bar_value win /\
  progress_bar_maximum win' = progress_bar_maximum win.

(** [pieces] with [t] appended to its last piece. *)
Fixpoint append_to_last (pieces : list string) (t : string) : list string :=
  match pieces with
  | [] => []
  | [piece] => [piece +:+ t]
  | piece :: rest => piece :: append_to_last rest t
  end.

(** The text of the exception a fault raises. *)
Definition fault_text (flt : Fault) : string :=
  match flt with
  | stat_fails e => e
  | open_fails e => e
  | write_fails e _ => e
  end.

(** A fault that makes every [open] fail. *)
Definition always_open_fails (files : gmap string string) (file_path : string)
  : option Fault := Some (open_fails "Permission denied").

(** A batch in flight: two URLs entered, the fetch started, one URL
    fetched and its progress signal delivered. *)
Definition mid_flight : list Action :=
  [EnterUrl "https://ok.test/a"; EnterUrl "https://bad.test/x";
   ClickFetch; Work; Deliver].

(** The example application after a list of actions. *)
Definition example_app (actions : list Action) : App unit :=
  run_actions unit (test_get 404) (requests_raise_for_status test_msg)
    test_handle no_fault actions (init_app unit tt ∅).

(** A short session: two URLs entered, a rejected entry, a fetch with all
    its steps and deliveries, then a merged save. *)
Definition full_cycle : list Action :=
  [EnterUrl "https://ok.test/a"; EnterUrl "ftp://nope"; EnterUrl "https://bad.test/x";
   ClickFetch; Work; Deliver; ClickClear; Work; Work; Deliver; Deliver;
   ClickSave "merged.md"].

(** A converter whose Markdown holds a line separator (U+2028), and the
    application after one page was fetched with it and both signals were
    delivered. *)
Definition lsep_handle (t : string) (w : unit) : Outcome string * unit :=
  (Returned ("one" +:+ LSEP +:+ "two"), w).

Definition lsep_app : App unit :=
  run_actions unit (test_get 404) (requests_raise_for_status test_msg)
    lsep_handle no_fault
    [EnterUrl "https://ok.test/a"; ClickFetch; Work; Work; Deliver; Deliver]
    (init_app unit tt ∅).

(** * Properties *)

(** Reduce the projections of the session records, nothing else. *)
Ltac fields :=
  cbn [fetch_thread window store world urls next results emitted returned
       url_list].

(** ** Strings *)

Example deriveName_example_1 :
  get_filename_from_url "https://example.com/docs/guide.html" = "docs_guide".
Proof. reflexivity. Qed.

Example deriveName_example_2 :
  get_filename_from_url "https://example.com/about" = "example_about".
Proof. reflexivity. Qed.

Example deriveName_example_3 :
  get_filename_from_url "https://example.com" = "example".
Proof. reflexivity. Qed.

Lemma re_sub_illegal_clean (s : string) : clean (re_sub_illegal s) = true.
Proof.
  induction s as [|c s IH]; simpl; [reflexivity|].
  rewrite IH, andb_true_r.
  destruct (is_illegal c) eqn:E; [reflexivity|].
  now rewrite E.
Qed.

Lemma re_sub_illegal_id (s : string) :
  clean s = true -> re_sub_illegal s = s.
Proof.
  induction s as [|c s IH]; simpl; [reflexivity|].
  intros [Hc Hs]%andb_true_iff.
  apply negb_true_iff in Hc. rewrite Hc, IH; auto.
Qed.

Lemma rpartition_clean (sep s before after : string) :
  Py.rpartition sep s = Some (before, after) ->
  clean s = true -> clean before = true.
Proof.
  revert before after.
  induction s as [|c s IH]; cbn [Py.rpartition clean];
    intros before after H Hs; [discriminate|].
  apply andb_true_iff in Hs as [Hc Hs].
  destruct (Py.rpartition sep s) as [[b a]|] eqn:E.
  - injection H as <- <-. simpl. rewrite Hc. simpl.
    apply (IH b a); [reflexivity | exact Hs].
  - destruct (String.prefix sep (String c s)); [|discriminate].
    injection H as <- <-. reflexivity.
Qed.

Lemma rsplit1_head_clean (sep s : string) :
  clean s = true -> clean (item 0 (Py.rsplit1 sep s)) = true.
Proof.
  intros Hs. unfold Py.rsplit1.
  destruct (Py.rpartition sep s) as [[b a]|] eqn:E; simpl; [|exact Hs].
  eapply rpartition_clean; eauto.
Qed.

(** Every name [get_filename_from_url] returns is free of the illegal
    characters. *)
Lemma get_filename_from_url_clean (u : string) :
  clean (get_filename_from_url u) = true.
Proof.
  unfold get_filename_from_url.
  match goal with
  | |- context [re_sub_illegal ?x] => generalize (re_sub_illegal_clean x);
                                      generalize (re_sub_illegal x)
  end.
  intros f Hf.
  destruct (Py.contains "." f).
  - pose proof (rsplit1_head_clean "." f Hf) as H.
    destruct (is_empty _); [reflexivity | exact H].
  - destruct (is_empty f); [reflexivity | exact Hf].
Qed.

(** C8. Substituting the illegal characters a second time in a name that
    [get_filename_from_url] returned changes nothing: for every URL [u],
    [re_sub_illegal (get_filename_from_url u) = get_filename_from_url u]. *)
Theorem resubstitution_is_noop (u : string) :
  re_sub_illegal (get_filename_from_url u) = get_filename_from_url u.
Proof.
  apply re_sub_illegal_id, get_filename_from_url_clean.
Qed.

(** ** The worker *)

Section FetchFacts.

Variable World : Type.
Variable requests_get : string -> World -> Outcome Response * World.
Variable raise_for_status : Response -> option string.
Variable handle : string -> World -> Outcome string * World.

Local Abbreviation fetch_one' := (fetch_one World requests_get raise_for_status handle).
Local Abbreviation try_body' := (try_body World requests_get raise_for_status handle).
Local Abbreviation run_loop' := (run_loop World requests_get raise_for_status handle).
Local Abbreviation run' := (run World requests_get raise_for_status handle).
Local Abbreviation run_results' := (run_results World requests_get raise_for_status handle).
Local Abbreviation world_at' := (world_at World requests_get raise_for_status handle).
Local Abbreviation batch' := (batch World requests_get raise_for_status handle).
Local Abbreviation world_after' := (world_after World requests_get raise_for_status handle).

Lemma run_loop_unfold total i rest rs em w :
  run_loop' total i rest rs em w =
  (rs ++ batch' rest w, em ++ progress_from total i (length rest),
   world_after' rest w).
Proof.
  revert i rs em w.
  induction rest as [|u rest IH]; intros i rs em w.
  - cbn. unfold progress_from. cbn. now rewrite !app_nil_r.
  - cbn [run_loop batch' world_after' length].
    destruct (fetch_one' u w) as [r w'] eqn:E. cbn [fst snd].
    rewrite IH. unfold progress_from. cbn [seq map].
    rewrite <- !app_assoc. cbn [app].
    replace (S i + 1) with (S (i + 1)) by lia. reflexivity.
Qed.

Lemma run_results_batch l w : run_results' l w = batch' l w.
Proof. unfold run_results. now rewrite run_loop_unfold. Qed.

Lemma world_at_after l i w : world_at' l i w = world_after' (take i l) w.
Proof. unfold world_at. now rewrite run_loop_unfold. Qed.

Lemma run_unfold l w :
  run' l w =
  (progress_from (length l) 0 (length l) ++ [finished (batch' l w)],
   world_after' l w).
Proof. unfold run. now rewrite run_loop_unfold. Qed.

Lemma fetch_one_url u w : url (fetch_one' u w).1 = u.
Proof.
  unfold fetch_one. now destruct (try_body' u w) as [[md|e] w'].
Qed.

Lemma batch_urls l w : map url (batch' l w) = l.
Proof.
  revert w. induction l as [|u l IH]; intros w; cbn; [reflexivity|].
  now rewrite fetch_one_url, IH.
Qed.

Lemma batch_length l w : length (batch' l w) = length l.
Proof. now rewrite <- (batch_urls l w) at 2; rewrite length_map. Qed.

Lemma batch_app l1 l2 w :
  batch' (l1 ++ l2) w = batch' l1 w ++ batch' l2 (world_after' l1 w).
Proof.
  revert w. induction l1 as [|u l1 IH]; intros w; cbn; [reflexivity|].
  now rewrite IH.
Qed.

(** The result at position [i] is the one fetched for the URL at [i], in
    the world the earlier fetches left. *)
Lemma batch_lookup (l : list string) i u w :
  l !! i = Some u ->
  batch' l w !! i = Some (fetch_one' u (world_after' (take i l) w)).1.
Proof.
  intros Hi.
  rewrite <- (take_drop_middle l i u Hi) at 1.
  rewrite batch_app. cbn [batch].
  rewrite lookup_app_r; rewrite batch_length, length_take;
    apply lookup_lt_Some in Hi as Hlt; [|lia].
  replace (i - i `min` length l) with 0 by lia. reflexivity.
Qed.

Lemma progress_from_seq total n :
  progress_from total 0 n = map (fun i => progress i total) (seq 1 n).
Proof. reflexivity. Qed.

Lemma progress_from_length total i n : length (progress_from total i n) = n.
Proof. unfold progress_from. now rewrite length_map, length_seq. Qed.

Lemma progress_from_S total i n :
  progress_from total i (S n) =
  progress_from total i n ++ [progress (i + n + 1) total].
Proof.
  unfold progress_from. rewrite seq_S, map_app. cbn.
  now replace (i + 1 + n) with (i + n + 1) by lia.
Qed.

(** Entering the loop body for position [k], the loop has recorded the
    results of the first [k] URLs and emitted the first [k] progress
    signals. *)
Lemma run_loop_split total (l : list string) k w :
  run_loop' total 0 l [] [] w =
  run_loop' total k (drop k l) (batch' (take k l) w)
            (progress_from total 0 (length (take k l)))
            (world_after' (take k l) w).
Proof.
  destruct (decide (k <= length l)) as [Hk|Hk].
  - rewrite !run_loop_unfold. cbn [app].
    rewrite <- (take_drop k l) at 1 2 3.
    rewrite batch_app, length_app.
    f_equal; [f_equal|].
    + unfold progress_from. rewrite seq_app, map_app.
      rewrite length_take. replace (k `min` length l) with k by lia.
      now replace (0 + 1 + k) with (k + 1) by lia.
    + clear Hk. revert w. generalize (drop k l).
      induction (take k l) as [|u t IH]; intros d w; cbn; [reflexivity|].
      apply IH.
  - rewrite drop_ge, take_ge by lia.
    rewrite !run_loop_unfold. cbn. now rewrite !app_nil_r.
Qed.

(** C7. For a batch of [n] URLs the worker emits exactly [n] progress
    signals, the i-th carrying [(i, n)], and then the [finished] signal,
    once and last; the signals follow the URL list: when the loop reaches
    position [k] it has recorded results for exactly the first [k] URLs and
    emitted exactly the first [k] progress signals. *)
Theorem progress_then_finished (l : list string) (w : World) :
  (run' l w).1 =
    map (fun i => progress i (length l)) (seq 1 (length l))
    ++ [finished (run_results' l w)]
  /\ forall k, k <= length l ->
       exists rs wk,
         run_loop' (length l) 0 l [] [] w =
           run_loop' (length l) k (drop k l) rs
             (map (fun i => progress i (length l)) (seq 1 k)) wk
         /\ map url rs = take k l.
Proof.
  split.
  - now rewrite run_unfold, run_results_batch.
  - intros k Hk.
    exists (batch' (take k l) w), (world_after' (take k l) w). split.
    + rewrite (run_loop_split (length l) l k w).
      rewrite length_take. now replace (k `min` length l) with k by lia.
    + apply batch_urls.
Qed.

Lemma try_body_http_error (msg : Response -> string) u w resp w1 :
  requests_get u w = (Returned resp, w1) ->
  400 <= status_code resp < 600 ->
  (try_body World requests_get (requests_raise_for_status msg) handle u w).1
  = Raised (msg resp).
Proof.
  intros Hget [Hlo Hhi]. unfold try_body, requests_raise_for_status.
  rewrite Hget.
  apply Nat.leb_le in Hlo. apply Nat.ltb_lt in Hhi.
  now rewrite Hlo, Hhi.
Qed.

End FetchFacts.

(** ** Failures of single URLs *)

(** C3, amended. Every URL of a batch whose [try] body raises, and in
    particular every URL answered with a status from 400 to 599 (the
    statuses [raise_for_status] reports), is recorded with [success = false]
    and the error text after the prefix of the program as [content]; the
    loop goes on: the batch has a result for every URL. *)
Theorem fetch_failures_recorded (World : Type)
    (requests_get : string -> World -> Outcome Response * World)
    (msg : Response -> string)
    (handle : string -> World -> Outcome string * World)
    (l : list string) (w : World) (i : nat) (u : string) :
  l !! i = Some u ->
  length (run_results World requests_get (requests_raise_for_status msg) handle l w)
    = length l
  /\ (forall e,
        (try_body World requests_get (requests_raise_for_status msg) handle u
           (world_at World requests_get (requests_raise_for_status msg) handle l i w)).1
          = Raised e ->
        run_results World requests_get (requests_raise_for_status msg) handle l w !! i
          = Some (mkResult u ("错误: " +:+ e) false))
  /\ (forall resp w1,
        requests_get u
          (world_at World requests_get (requests_raise_for_status msg) handle l i w)
          = (Returned resp, w1) ->
        400 <= status_code resp < 600 ->
        run_results World requests_get (requests_raise_for_status msg) handle l w !! i
          = Some (mkResult u ("错误: " +:+ msg resp) false)).
Proof.
  intros Hi.
  assert (Hraised : forall e,
    (try_body World requests_get (requests_raise_for_status msg) handle u
       (world_at World requests_get (requests_raise_for_status msg) handle l i w)).1
      = Raised e ->
    run_results World requests_get (requests_raise_for_status msg) handle l w !! i
      = Some (mkResult u ("错误: " +:+ e) false)).
  { intros e He.
    rewrite run_results_batch, (batch_lookup _ _ _ _ l i u w Hi).
    rewrite world_at_after in He. unfold fetch_one.
    destruct (try_body _ _ _ _ u _) as [[md|e'] w']; cbn in He; [discriminate|].
    now injection He as ->. }
  split; [|split].
  - rewrite run_results_batch. apply batch_length.
  - exact Hraised.
  - intros resp w1 Hget Hst. apply Hraised.
    eapply try_body_http_error; eauto.
Qed.

Lemma fetch_failures_recorded_witness :
  run_results unit (test_get 404) (requests_raise_for_status test_msg) test_handle
    ["https://ok.test/a"; "https://bad.test/x"] tt !! 1
  = Some (mkResult "https://bad.test/x" "错误: 404 Error" false).
Proof.
  refine (proj2 (proj2
    (fetch_failures_recorded unit (test_get 404) test_msg test_handle
       ["https://ok.test/a"; "https://bad.test/x"] tt 1 "https://bad.test/x"
       eq_refl))
    (mkResponse 404 "<p>body</p>") tt eq_refl _).
  cbn. lia.
Defined.

(** Counterexample to the unamended C3: a status outside 200..299 that
    [raise_for_status] lets pass.  A 304 answer is recorded with
    [success = true] and the converted body as [content]. *)
Lemma status_304_recorded_as_success :
  ~ (200 <= status_code (mkResponse 304 "<p>body</p>") < 300)
  /\ test_get 304 "https://bad.test/x" tt
     = (Returned (mkResponse 304 "<p>body</p>"), tt)
  /\ run_results unit (test_get 304) (requests_raise_for_status test_msg) test_handle
       ["https://ok.test/a"; "https://bad.test/x"] tt
     = [mkResult "https://ok.test/a" "<p>hello</p>" true;
        mkResult "https://bad.test/x" "<p>body</p>" true].
Proof.
  split; [cbn; lia|]. split; reflexivity.
Qed.

Lemma progress_then_finished_witness :
  exists rs wk,
    run_loop unit (test_get 404) (requests_raise_for_status test_msg) test_handle
      2 0 ["https://ok.test/a"; "https://bad.test/x"] [] [] tt
    = run_loop unit (test_get 404) (requests_raise_for_status test_msg) test_handle
        2 1 ["https://bad.test/x"] rs [progress 1 2] wk
    /\ map url rs = ["https://ok.test/a"].
Proof.
  apply (proj2 (progress_then_finished unit (test_get 404)
                  (requests_raise_for_status test_msg) test_handle
                  ["https://ok.test/a"; "https://bad.test/x"] tt) 1).
  cbn. lia.
Defined.

(** ** The session *)

Section SessionFacts.

Variable World : Type.
Variable requests_get : string -> World -> Outcome Response * World.
Variable raise_for_status : Response -> option string.
Variable handle : string -> World -> Outcome string * World.

Local Abbreviation fetch_one' := (fetch_one World requests_get raise_for_status handle).
Local Abbreviation run' := (run World requests_get raise_for_status handle).
Local Abbreviation run_results' := (run_results World requests_get raise_for_status handle).
Local Abbreviation batch' := (batch World requests_get raise_for_status handle).
Local Abbreviation world_after' := (world_after World requests_get raise_for_status handle).
Local Abbreviation worker_step' := (worker_step World requests_get raise_for_status handle).
Local Abbreviation exec_event' := (exec_event World requests_get raise_for_status handle).
Local Abbreviation exec' := (exec World requests_get raise_for_status handle).
Local Abbreviation frame' := (frame World).
Local Abbreviation in_flight' :=
  (in_flight World requests_get raise_for_status handle).

Implicit Type s : Session World.

Lemma deref_lookup (st : gmap nat (list string)) r l :
  st !! r = Some l -> deref st r = l.
Proof. intros H. unfold deref. now rewrite H. Qed.

Lemma frame_refl s : frame' s s.
Proof. repeat split. Qed.

Lemma add_url_frame u s : frame' s (add_url World u s).
Proof.
  unfold add_url. destruct (is_empty u); [apply frame_refl|].
  destruct (_ || _); repeat split; cbn.
  intros r Hr. now rewrite lookup_insert_ne.
Qed.

Lemma remove_url_frame row s : frame' s (remove_url World row s).
Proof.
  unfold remove_url. destruct (0 <=? row)%Z; [|apply frame_refl].
  destruct (pop _ _); [|apply frame_refl].
  repeat split; cbn. intros r Hr. now rewrite lookup_insert_ne.
Qed.

Lemma clear_urls_frame s : frame' s (clear_urls World s).
Proof.
  unfold clear_urls. repeat split; cbn.
  intros r Hr. now rewrite lookup_insert_ne.
Qed.

Lemma start_fetch_in_flight s (l : list string) :
  deref (store s) (url_list (window s)) = l -> l <> [] ->
  in_flight' l (world s) 0 (start_fetch World s).
Proof.
  intros Hl Hne. unfold start_fetch. rewrite Hl.
  destruct l as [|u l']; [done|].
  assert (Hdom : url_list (window s) ∈ dom (store s)).
  { apply elem_of_dom. unfold deref in Hl.
    destruct (store s !! url_list (window s)); [eauto | discriminate]. }
  eexists. cbn. repeat split.
  - intros Heq. rewrite <- Heq in Hdom. now apply is_fresh in Hdom.
  - apply lookup_insert_eq.
Qed.

Lemma frame_in_flight l w0 k s s' :
  frame' s s' -> in_flight' l w0 k s -> in_flight' l w0 k s'.
Proof.
  intros (Ht & Hw & Hu & Hst) (t & H1 & H2 & H3 & H4 & H5 & H6 & H7 & H8).
  exists t. rewrite Ht, Hw, Hu. repeat split; try assumption.
  now rewrite Hst.
Qed.

Lemma world_after_app l1 l2 w :
  world_after' (l1 ++ l2) w = world_after' l2 (world_after' l1 w).
Proof.
  revert w. induction l1 as [|u l1 IH]; intros w; cbn; [reflexivity|].
  now rewrite IH.
Qed.

Lemma run_signals_length l w : length (run' l w).1 = S (length l).
Proof.
  rewrite run_unfold. cbn. rewrite length_app, progress_from_length. cbn. lia.
Qed.

Lemma run_signals_lookup (l : list string) w k :
  k < length l -> (run' l w).1 !! k = Some (progress (k + 1) (length l)).
Proof.
  intros Hk. rewrite run_unfold. cbn [fst].
  rewrite lookup_app_l by now rewrite progress_from_length.
  unfold progress_from. rewrite list_lookup_fmap, lookup_seq_lt by exact Hk.
  cbn. do 2 f_equal. lia.
Qed.

Lemma progress_from_not_finished total i n :
  existsb is_finished (progress_from total i n) = false.
Proof.
  unfold progress_from. generalize (seq (i + 1) n).
  intros ks. now induction ks.
Qed.

Lemma worker_step_in_flight l w0 k s :
  in_flight' l w0 k s -> in_flight' l w0 (S k) (worker_step' s).
Proof.
  intros (t & Ht & Hne & Hst & Hnext & Hres & Hw & Hem & Hret).
  unfold worker_step. rewrite Ht, Hret, (deref_lookup _ _ _ Hst).
  destruct (decide (S (length l) < k)) as [Hk|Hk].
  - (* the thread has returned *)
    rewrite bool_decide_eq_true_2 by exact Hk.
    exists t. repeat split; try assumption.
    + lia.
    + now rewrite Hres, !take_ge by lia.
    + now rewrite Hw, !take_ge by lia.
    + rewrite Hem, !take_ge; [reflexivity|..]; rewrite run_signals_length; lia.
    + rewrite Hret. apply bool_decide_ext. lia.
  - rewrite bool_decide_eq_false_2 by exact Hk.
    rewrite Hnext.
    destruct (decide (k < length l)) as [Hlt|Hge].
    + (* one more URL *)
      replace (k `min` length l) with k by lia.
      destruct (lookup_lt_is_Some_2 l k Hlt) as [u Hu]. rewrite Hu.
      destruct (fetch_one' u (world s)) as [r w'] eqn:E.
      eexists. fields. repeat split; fields; try eassumption.
      * lia.
      * rewrite (take_S_r l k u Hu), batch_app, <- Hres. cbn.
        now rewrite <- Hw, E.
      * rewrite (take_S_r l k u Hu), world_after_app. cbn.
        now rewrite <- Hw, E.
      * rewrite (take_S_r _ k _ (run_signals_lookup l w0 k Hlt)).
        now rewrite Hem.
      * symmetry. apply bool_decide_eq_false_2. lia.
    + (* past the end: the loop is over *)
      replace (k `min` length l) with (length l) by lia.
      rewrite lookup_ge_None_2 by lia.
      destruct (decide (k = length l)) as [->|Hk1].
      * (* [finished] is emitted *)
        assert (Hfe : finished_emitted t = false).
        { unfold finished_emitted. rewrite Hem, run_unfold. cbn [fst].
          rewrite take_app_length' by now rewrite progress_from_length.
          apply progress_from_not_finished. }
        rewrite Hfe.
        eexists. fields. repeat split; fields; try eassumption.
        -- lia.
        -- now rewrite Hres, !take_ge by lia.
        -- now rewrite Hw, !take_ge by lia.
        -- rewrite Hem, Hres, (take_ge l) by lia.
           rewrite (take_ge _ (S (length l))) by (rewrite run_signals_length; lia).
           rewrite run_unfold. cbn [fst].
           now rewrite take_app_length' by now rewrite progress_from_length.
        -- symmetry. apply bool_decide_eq_false_2. lia.
      * (* [run] returns *)
        assert (k = S (length l)) as -> by lia.
        assert (Hfe : finished_emitted t = true).
        { unfold finished_emitted. rewrite Hem, run_unfold. cbn [fst].
          rewrite take_ge
            by (rewrite length_app, progress_from_length; cbn; lia).
          rewrite existsb_app. cbn. apply orb_true_r. }
        rewrite Hfe.
        eexists. fields. repeat split; fields; try eassumption.
        -- lia.
        -- now rewrite Hres, !take_ge by lia.
        -- now rewrite Hw, !take_ge by lia.
        -- rewrite Hem, !take_ge; [reflexivity|..]; rewrite run_signals_length; lia.
        -- symmetry. apply bool_decide_eq_true_2. lia.
Qed.

Lemma exec_in_flight l w0 schedule : forall k s,
  in_flight' l w0 k s ->
  in_flight' l w0 (k + worker_steps schedule) (exec' schedule s).
Proof.
  induction schedule as [|e es IH]; intros k s H.
  - cbn. now rewrite Nat.add_0_r.
  - cbn [exec fold_left]. fold (exec' es (exec_event' e s)).
    destruct e; cbn [worker_steps List.filter is_worker_step length exec_event];
      fold (worker_steps es).
    + apply IH. eapply frame_in_flight; [apply add_url_frame | exact H].
    + apply IH. eapply frame_in_flight; [apply remove_url_frame | exact H].
    + apply IH. eapply frame_in_flight; [apply clear_urls_frame | exact H].
    + replace (k + S (worker_steps es)) with (S k + worker_steps es) by lia.
      apply IH. now apply worker_step_in_flight.
Qed.

(** However the worker's steps are interleaved with edits of the URL list,
    the signals it has emitted are an initial part of what [run] emits for
    the list as it was at launch. *)
Lemma exec_signals s (l : list string) schedule :
  deref (store s) (url_list (window s)) = l -> l <> [] ->
  signals World (exec' schedule (start_fetch World s))
  = take (worker_steps schedule) (run' l (world s)).1.
Proof.
  intros Hl Hne.
  pose proof (exec_in_flight l (world s) schedule 0 _
                (start_fetch_in_flight s l Hl Hne)) as (t & Ht & _ & _ & _ & _ & _ & Hem & _).
  unfold signals. now rewrite Ht, Hem.
Qed.

(** C2. For a non-empty URL list the batch the worker emits has one result
    per URL, in the order of the list: the i-th result carries the i-th
    URL.  The list is the one captured when [start_fetch] ran: however the
    worker's steps are interleaved with later [add_url], [remove_url] and
    [clear_urls] calls, every batch it emits is the batch for that list, and
    once the worker has had more steps than there are URLs it has emitted
    it. *)
Theorem batch_order_fixed_at_launch s (l : list string) :
  deref (store s) (url_list (window s)) = l -> l <> [] ->
  map url (run_results' l (world s)) = l
  /\ forall schedule,
       (forall rs,
          finished rs ∈ signals World (exec' schedule (start_fetch World s)) ->
          rs = run_results' l (world s) /\ map url rs = l)
       /\ (length l < worker_steps schedule ->
           signals World (exec' schedule (start_fetch World s))
           = map (fun i => progress i (length l)) (seq 1 (length l))
             ++ [finished (run_results' l (world s))]).
Proof.
  intros Hl Hne. rewrite run_results_batch.
  split; [apply batch_urls|].
  intros schedule. rewrite (exec_signals s l schedule Hl Hne), run_unfold.
  cbn [fst]. split.
  - intros rs Hin. apply elem_of_take in Hin as (i & Hin & _).
    apply list_elem_of_lookup_2, elem_of_app in Hin as [Hin|Hin].
    + unfold progress_from in Hin.
      apply list_elem_of_fmap in Hin as (k & Hk & _). discriminate.
    + apply list_elem_of_singleton in Hin. injection Hin as ->.
      split; [reflexivity | apply batch_urls].
  - intros Hk. rewrite take_ge; [reflexivity|].
    rewrite length_app, progress_from_length. cbn. lia.
Qed.

(** C10. With an empty URL list [start_fetch] only shows its warning: no
    thread is created, no list is copied, and the result batch, the
    preview, the two buttons, the progress bar and the status line stay as
    they were. *)
Theorem start_fetch_empty_rejected s :
  deref (store s) (url_list (window s)) = [] ->
  start_fetch World s
    = with_window World s (show_box (warning "提示" "请先添加URL") (window s))
  /\ fetch_thread (start_fetch World s) = fetch_thread s
  /\ store (start_fetch World s) = store s
  /\ world (start_fetch World s) = world s
  /\ markdown_results (window (start_fetch World s)) = markdown_results (window s)
  /\ preview_text (window (start_fetch World s)) = preview_text (window s)
  /\ fetch_btn (window (start_fetch World s)) = fetch_btn (window s)
  /\ save_btn (window (start_fetch World s)) = save_btn (window s)
  /\ progress_bar_visible (window (start_fetch World s))
     = progress_bar_visible (window s)
  /\ status_bar (window (start_fetch World s)) = status_bar (window s)
  /\ message_boxes (window (start_fetch World s))
     = message_boxes (window s) ++ [warning "提示" "请先添加URL"].
Proof.
  intros Hl. unfold start_fetch. rewrite Hl. repeat split.
Qed.

End SessionFacts.

Lemma batch_order_fixed_at_launch_witness :
  signals unit
    (exec unit (test_get 404) (requests_raise_for_status test_msg) test_handle
       busy_schedule (start_fetch unit two_url_session))
  = [progress 1 2; progress 2 2;
     finished
       (run_results unit (test_get 404) (requests_raise_for_status test_msg)
          test_handle two_urls tt)].
Proof.
  refine (proj2 (proj2
    (batch_order_fixed_at_launch unit (test_get 404)
       (requests_raise_for_status test_msg) test_handle
       two_url_session two_urls eq_refl _) busy_schedule) _).
  - discriminate.
  - cbn. lia.
Defined.

Lemma start_fetch_empty_rejected_witness :
  message_boxes (window (start_fetch unit (init_session tt)))
  = [warning "提示" "请先添加URL"]
  /\ fetch_thread (start_fetch unit (init_session tt)) = None.
Proof.
  pose proof (start_fetch_empty_rejected unit (init_session tt) eq_refl)
    as (_ & Ht & _ & _ & _ & _ & _ & _ & _ & _ & Hb).
  split; [exact Hb | exact Ht].
Defined.


(** ** Prefixes of strings *)

Lemma prefix_empty (s : string) : String.prefix EmptyString s = true.
Proof. now destruct s. Qed.

Lemma prefix_cons (a b : ascii) (s1 s2 : string) :
  String.prefix (String a s1) (String b s2)
  = if ascii_dec a b then String.prefix s1 s2 else false.
Proof. reflexivity. Qed.

Lemma prefix_nil_r (a : ascii) (s1 : string) :
  String.prefix (String a s1) EmptyString = false.
Proof. reflexivity. Qed.

Lemma prefix_str1 (c d : ascii) (s : string) :
  String.prefix (Py.str1 c) (String d s) = if ascii_dec c d then true else false.
Proof.
  unfold Py.str1. rewrite prefix_cons.
  destruct (ascii_dec c d); [apply prefix_empty | reflexivity].
Qed.

Lemma append_nil_l (s : string) : EmptyString +:+ s = s.
Proof. reflexivity. Qed.

(** Decide the comparisons of characters a goal about [String.prefix]
    depends on. *)
Ltac prefix_cases :=
  repeat first
    [ rewrite prefix_cons
    | rewrite prefix_nil_r
    | rewrite prefix_empty
    | match goal with
      | |- context [ascii_dec ?x ?y] => destruct (ascii_dec x y); subst
      end ].


(** ** Saving as one merged file *)

Lemma append_String (x : ascii) (a b : string) :
  String x a +:+ b = String x (a +:+ b).
Proof. reflexivity. Qed.

Lemma append_assoc (a b c : string) : (a +:+ b) +:+ c = a +:+ (b +:+ c).
Proof.
  induction a as [|x a IH]; [reflexivity|].
  now rewrite !append_String, IH.
Qed.

Lemma merged_content_spec (results : list FetchResult) :
  merged_content results = Spec.merged_document results.
Proof.
  unfold merged_content.
  induction results as [|r rest IH]; [reflexivity|].
  cbn [map concat merged_pieces app Py.join fold_right Spec.merged_document].
  fold (Py.join (concat (map merged_pieces rest))). rewrite IH.
  unfold Spec.heading_line, Spec.blank_line, Spec.horizontal_rule.
  now rewrite !append_assoc.
Qed.

Lemma is_empty_false (x : string) : x <> EmptyString -> is_empty x = false.
Proof. now destruct x. Qed.

(** ** What the preview widget gives back *)

Lemma prefix_contains (sub s : string) :
  String.prefix sub s = true -> Py.contains sub s = true.
Proof. intros H. destruct s; cbn [Py.contains]; now rewrite H. Qed.

Lemma contains_cons_false (sub : string) (c : ascii) (s : string) :
  Py.contains sub (String c s) = false ->
  String.prefix sub (String c s) = false /\ Py.contains sub s = false.
Proof. cbn [Py.contains]. intros H. now apply orb_false_iff in H. Qed.

Lemma prefix_CRLF_CR (s : string) :
  String.prefix CR s = false -> String.prefix CRLF s = false.
Proof.
  destruct s as [|c s]; [reflexivity|].
  unfold CR, CRLF, Py.str1. rewrite !prefix_cons, prefix_empty.
  now destruct (ascii_dec (Py.chr 13) c).
Qed.

(** A text without the characters the widget replaces comes back as it
    went in. *)
Lemma qt_plain_text_safe (s : string) :
  qt_safe s = true -> qt_plain_text s = s.
Proof.
  unfold qt_plain_text, qt_safe, qt_breaks.
  induction s as [|c s IH]; [reflexivity|].
  cbn [forallb]. rewrite !andb_true_iff, !negb_true_iff.
  intros ((Hcr & Hnb) & Hl & Hp & Hb & He & _).
  apply contains_cons_false in Hcr as [Hcr Hcr'].
  apply contains_cons_false in Hnb as [Hnb Hnb'].
  apply contains_cons_false in Hl as [Hl Hl'].
  apply contains_cons_false in Hp as [Hp Hp'].
  apply contains_cons_false in Hb as [Hb Hb'].
  apply contains_cons_false in He as [He He'].
  cbn [qt_go existsb qt_breaks].
  rewrite (prefix_CRLF_CR _ Hcr), Hcr, Hnb, Hl, Hp, Hb, He. cbn [orb].
  f_equal. apply IH. cbn [forallb].
  now rewrite Hcr', Hnb', Hl', Hp', Hb', He'.
Qed.

Section MergedFacts.

Variable World : Type.
Variable fault : gmap string string -> string -> option Fault.

(** In the merged branch the text handed to [f.write] is what the preview
    widget gives back, whatever the result batch holds; no exception leaves
    the handler. *)
Lemma save_merged_writes_preview (win : MarkdownMerger)
    (files : gmap string string) (chosen : string) :
  markdown_results win <> [] -> merge_radio win = true ->
  chosen <> EmptyString ->
  exists saved,
    save_markdown fault chosen win files = Some saved
    /\ writes saved
       = [mkWrite chosen (qt_plain_text (preview_text win))
            (bool_decide (fault files chosen = None))]
    /\ uncaught saved = None
    /\ (fault files chosen = None ->
        saved_files saved
        = <[ chosen := qt_plain_text (preview_text win) ]> files)
    /\ (forall p, p <> chosen -> saved_files saved !! p = files !! p).
Proof.
  intros Hres Hmerge Hchosen. unfold save_markdown.
  destruct (markdown_results win) as [|r rs]; [done|].
  rewrite Hmerge, (is_empty_false chosen Hchosen). unfold write_file.
  destruct (fault files chosen) as [[e|e|e n]|]; eexists;
    (split; [reflexivity|]); cbn; repeat split; try done;
    intros p Hp; now rewrite ?lookup_insert_ne.
Qed.

(** C6 (amended). After [fetch_completed] has taken a batch, a merged save
    to the chosen path writes one file and touches no other path.  Its text
    is the concatenation, in batch order, of heading line, blank line,
    content and horizontal rule of each result, as the preview widget gives
    it back; that is the concatenation itself when it holds none of the
    characters the widget replaces. *)
Theorem merged_save_concatenation_read_back (s : Session World)
    (results : list FetchResult) (files : gmap string string)
    (chosen : string) :
  results <> [] ->
  merge_radio (window s) = true ->
  chosen <> EmptyString ->
  fault files chosen = None ->
  exists saved,
    save_markdown fault chosen (window (fetch_completed World results s)) files
      = Some saved
    /\ uncaught saved = None
    /\ writes saved
       = [mkWrite chosen (qt_plain_text (Spec.merged_document results)) true]
    /\ saved_files saved
       = <[ chosen := qt_plain_text (Spec.merged_document results) ]> files
    /\ (qt_safe (Spec.merged_document results) = true ->
        writes saved = [mkWrite chosen (Spec.merged_document results) true]
        /\ saved_files saved
           = <[ chosen := Spec.merged_document results ]> files).
Proof.
  intros Hres Hmerge Hchosen Hok.
  destruct (save_merged_writes_preview
              (window (fetch_completed World results s)) files chosen)
    as (saved & Hs & Hw & Hu & Hf & _); try assumption.
  exists saved. cbn in Hw, Hf. rewrite merged_content_spec in Hw, Hf.
  rewrite Hok in Hw. specialize (Hf Hok).
  repeat split; try assumption.
  - rewrite Hw. now rewrite qt_plain_text_safe.
  - rewrite Hf. now rewrite qt_plain_text_safe.
Qed.

End MergedFacts.

(** ** Saving as separate files: names *)

Lemma append_length (a b : string) :
  String.length (a +:+ b) = String.length a + String.length b.
Proof.
  induction a as [|x a IH]; [reflexivity|].
  rewrite append_String. cbn. now rewrite IH.
Qed.

Lemma append_inj_l (a b c : string) : a +:+ c = b +:+ c -> a = b.
Proof.
  revert b. induction a as [|x a IH]; intros [|y b] H.
  - reflexivity.
  - apply (f_equal String.length) in H.
    rewrite !append_length in H. cbn in H. lia.
  - apply (f_equal String.length) in H.
    rewrite !append_length in H. cbn in H. lia.
  - rewrite !append_String in H. injection H as -> H.
    f_equal. now apply IH.
Qed.

Lemma append_inj_r (a b c : string) : a +:+ b = a +:+ c -> b = c.
Proof.
  induction a as [|x a IH]; [trivial|].
  rewrite !append_String. intros H. injection H as H. now apply IH.
Qed.

Lemma candidate_inj (folder filename : string) (j k : nat) :
  candidate folder filename j = candidate folder filename k -> j = k.
Proof.
  unfold candidate, path_join.
  destruct j as [|j], k as [|k]; intros H;
    repeat (apply append_inj_r in H); try discriminate; [reflexivity|].
  apply append_inj_l in H. now apply (inj pretty) in H.
Qed.

Section SplitFacts.

Variable fault : gmap string string -> string -> option Fault.

Local Abbreviation write_file' := (write_file fault).
Local Abbreviation stat_error' := (stat_error fault).
Local Abbreviation path_exists' := (path_exists fault).
Local Abbreviation free_path_loop' := (free_path_loop fault).
Local Abbreviation free_path' := (free_path fault).
Local Abbreviation stops_at' := (stops_at fault).
Local Abbreviation save_split_loop' := (save_split_loop fault).

(** One turn of the collision loop, in terms of the candidate names. *)
Lemma free_path_loop_step fuel files folder filename j :
  free_path_loop' (S fuel) files folder filename
    (candidate folder filename j) (j + 1)
  = match path_exists' files (candidate folder filename j) with
    | Raised e => Some (Raised e)
    | Returned true =>
        free_path_loop' fuel files folder filename
          (candidate folder filename (S j)) (S j + 1)
    | Returned false => Some (Returned (candidate folder filename j))
    end.
Proof.
  cbn [free_path_loop]. replace (j + 1) with (S j) by lia. reflexivity.
Qed.

(** If the loop stops, it stops at the first candidate that cannot be
    examined or is not there. *)
Lemma free_path_loop_some files folder filename fuel : forall j o,
  free_path_loop' fuel files folder filename (candidate folder filename j) (j + 1)
    = Some o ->
  exists k,
    j <= k
    /\ (forall i, j <= i < k ->
          stat_error' files (candidate folder filename i) = None
          /\ is_Some (files !! candidate folder filename i))
    /\ match stat_error' files (candidate folder filename k) with
       | Some e => o = Raised e
       | None => files !! candidate folder filename k = None
                 /\ o = Returned (candidate folder filename k)
       end.
Proof.
  induction fuel as [|fuel IH]; intros j o H; [discriminate|].
  rewrite free_path_loop_step in H. unfold path_exists in H.
  destruct (stat_error' files (candidate folder filename j)) as [e|] eqn:Es.
  - injection H as <-. exists j. split; [lia|].
    split; [intros i Hi; lia|]. now rewrite Es.
  - destruct (bool_decide (is_Some (files !! candidate folder filename j)))
      eqn:E.
    + apply bool_decide_eq_true in E.
      apply IH in H as (k & Hk & Hbusy & Hend).
      exists k. split; [lia|]. split; [|exact Hend].
      intros i Hi. destruct (decide (i = j)) as [->|Hne]; [now split|].
      apply Hbusy. lia.
    + apply bool_decide_eq_false in E. injection H as <-.
      exists j. split; [lia|]. split; [intros i Hi; lia|].
      rewrite Es. split; [|reflexivity]. now apply eq_None_not_Some.
Qed.

(** If the fuel runs out, every candidate tested was there. *)
Lemma free_path_loop_none files folder filename fuel : forall j,
  free_path_loop' fuel files folder filename (candidate folder filename j) (j + 1)
    = None ->
  forall i, j <= i < j + fuel ->
    is_Some (files !! candidate folder filename i).
Proof.
  induction fuel as [|fuel IH]; intros j H i Hi; [lia|].
  rewrite free_path_loop_step in H. unfold path_exists in H.
  destruct (stat_error' files (candidate folder filename j)); [discriminate|].
  destruct (bool_decide (is_Some (files !! candidate folder filename j)))
    eqn:E; [|discriminate].
  apply bool_decide_eq_true in E.
  destruct (decide (i = j)) as [->|Hne]; [exact E|].
  apply (IH (S j) H). lia.
Qed.

(** The collision loop always ends: among one more candidate than there
    are files, one is free, unless a test raises before. *)
Lemma free_path_total (files : gmap string string) (folder filename : string) :
  exists k o,
    free_path' files folder filename = Some o
    /\ stops_at' files folder filename k o.
Proof.
  change (free_path' files folder filename)
    with (free_path_loop' (S (size files)) files folder filename
            (candidate folder filename 0) (0 + 1)).
  destruct (free_path_loop' _ _ _ _ _ _) as [o|] eqn:E.
  - apply free_path_loop_some in E as (k & _ & Hbusy & Hend).
    exists k, o. split; [reflexivity|]. split; [|exact Hend].
    intros i Hi. apply Hbusy. lia.
  - exfalso.
    pose proof (free_path_loop_none _ _ _ _ _ E) as Hall.
    set (cs := candidate folder filename <$> seq 0 (S (size files))).
    assert (Hnd : NoDup cs).
    { apply NoDup_fmap_2_strong; [|apply NoDup_seq].
      intros i j _ _. apply candidate_inj. }
    assert (Hsub : (list_to_set cs : gset string) ⊆ dom files).
    { intros p Hp. apply elem_of_list_to_set in Hp.
      apply list_elem_of_fmap in Hp as (i & -> & Hi).
      apply elem_of_seq in Hi. apply elem_of_dom, Hall. lia. }
    apply subseteq_size in Hsub.
    rewrite size_list_to_set, size_dom in Hsub by exact Hnd.
    unfold cs in Hsub. rewrite length_fmap, length_seq in Hsub. lia.
Qed.

(** Where the loop stops is determined by the files and the faults. *)
Lemma stops_at_unique files folder filename k k' o o' :
  stops_at' files folder filename k o ->
  stops_at' files folder filename k' o' ->
  k = k' /\ o = o'.
Proof.
  intros [Hb He] [Hb' He'].
  assert (k = k') as <-.
  { destruct (Nat.lt_trichotomy k k') as [Hlt|[->|Hgt]];
      [exfalso|reflexivity|exfalso].
    - destruct (Hb' k Hlt) as [Hs Hp]. rewrite Hs in He.
      destruct He as [Hfree _]. rewrite Hfree in Hp.
      now apply is_Some_None in Hp.
    - destruct (Hb k' Hgt) as [Hs Hp]. rewrite Hs in He'.
      destruct He' as [Hfree _]. rewrite Hfree in Hp.
      now apply is_Some_None in Hp. }
  split; [reflexivity|].
  destruct (stat_error' files (candidate folder filename k));
    [congruence|].
  destruct He as [_ ->], He' as [_ ->]. reflexivity.
Qed.

(** The loop ends the way the first candidate that is not simply there
    makes it end. *)
Lemma free_path_first (files : gmap string string) (folder filename : string)
    (k : nat) (o : Outcome string) :
  stops_at' files folder filename k o ->
  free_path' files folder filename = Some o.
Proof.
  intros H.
  destruct (free_path_total files folder filename) as (k' & o' & -> & H').
  f_equal. now destruct (stops_at_unique _ _ _ _ _ _ _ H' H).
Qed.

(** A write changes no path but its own. *)
Lemma write_file_other (file_path data p : string) (files : gmap string string) :
  p <> file_path -> (write_file' file_path data files).2 !! p = files !! p.
Proof.
  intros Hp. unfold write_file.
  destruct (fault files file_path) as [[e|e|e n]|]; cbn;
    now rewrite ?lookup_insert_ne.
Qed.

(** A write that completed left its data in the file. *)
Lemma write_file_returned (file_path data : string) (files : gmap string string) :
  (write_file' file_path data files).1 = Returned tt ->
  (write_file' file_path data files).2 !! file_path = Some data.
Proof.
  unfold write_file.
  destruct (fault files file_path) as [[e|e|e n]|]; cbn; try discriminate.
  intros _. apply lookup_insert_eq.
Qed.

(** A write to an absent path adds at most one file, and exactly one when
    it completed. *)
Lemma write_file_size (file_path data : string) (files : gmap string string) :
  files !! file_path = None ->
  size files <= size (write_file' file_path data files).2 <= S (size files)
  /\ ((write_file' file_path data files).1 = Returned tt ->
      size (write_file' file_path data files).2 = S (size files)).
Proof.
  intros Hfree. unfold write_file.
  destruct (fault files file_path) as [[e|e|e n]|]; cbn [fst snd];
    rewrite ?map_size_insert_None by exact Hfree;
    (split; [lia|]); intros H; try discriminate H; reflexivity.
Qed.

Lemma written_app (a b : list Write) : written (a ++ b) = written a + written b.
Proof. unfold written. now rewrite List.filter_app, length_app. Qed.

Lemma written_cons (w : Write) (new : list Write) :
  written (w :: new) = (if w_ok w then 1 else 0) + written new.
Proof. unfold written. cbn [List.filter]. now destruct (w_ok w). Qed.

(** What the loop of the split branch does, for any results, files and
    faults: it ends; it tries one write per successful result, in order,
    with that result's heading and content, up to the result whose
    existence test raised, if one did; it counts the writes that completed;
    every path it writes was absent when the loop began and is written with
    nothing but the tried data; files that were there keep their text, and
    so does every file the loop itself completed. *)
Lemma save_split_loop_spec (folder : string) (rest : list FetchResult) :
  forall (c : nat) (files : gmap string string) (out : list string)
         (tried : list Write),
  exists c' files' out' new u,
    save_split_loop' folder rest c files out tried
      = Some (c', files', out', tried ++ new, u)
    /\ (exists done skipped,
          List.filter success rest = done ++ skipped
          /\ map w_data new = map split_data done
          /\ (u = None <-> skipped = []))
    /\ c' = c + written new
    /\ (forall p, is_Some (files !! p) -> files' !! p = files !! p)
    /\ (forall w, w ∈ new -> w_ok w = true ->
          files' !! w_path w = Some (w_data w))
    /\ (forall w, w ∈ new -> files !! w_path w = None)
    /\ (forall p, files' !! p <> files !! p -> p ∈ map w_path new).
Proof.
  induction rest as [|r rest IH]; intros c files out tried.
  - exists c, files, out, [], None. cbn. rewrite app_nil_r.
    split; [reflexivity|]. split; [now exists [], []|].
    repeat split; try done; intros w Hw; now apply not_elem_of_nil in Hw.
  - cbn [save_split_loop List.filter].
    destruct (success r) eqn:Hs; [|apply IH].
    destruct (free_path_total files folder (get_filename_from_url (url r)))
      as (k & o & -> & _ & Hend).
    destruct (stat_error' files _) as [e|]; [subst o | destruct Hend as [Hfree ->]].
    { (* the existence test raised *)
      exists c, files, out, [], (Some e). rewrite app_nil_r.
      split; [reflexivity|]. split.
      { exists [], (r :: List.filter success rest).
        split; [reflexivity|]. split; [reflexivity|]. split; discriminate. }
      unfold written. cbn.
      repeat split; try done; try lia;
        intros w Hw; now apply not_elem_of_nil in Hw. }
    set (p := candidate folder (get_filename_from_url (url r)) k) in *.
    pose proof (fun q => write_file_other p (split_data r) q files) as Hother.
    pose proof (write_file_returned p (split_data r) files) as Hret.
    destruct (write_file' p (split_data r) files) as [[[]|e] files1] eqn:Hw;
      cbn [fst snd] in Hother, Hret.
    + (* the write completed *)
      destruct (IH (c + 1) files1 out (tried ++ [mkWrite p (split_data r) true]))
        as (c' & files' & out' & new & u & Hrun & (done & skipped & Hf & Hdata & Hu)
            & Hc & Hkeep & Hmine & Hnew & Honly).
      exists c', files', out', (mkWrite p (split_data r) true :: new), u.
      rewrite Hrun, <- app_assoc. cbn [app map].
      split; [reflexivity|]. split.
      { exists (r :: done), skipped. rewrite Hf. cbn [app map].
        split; [reflexivity|]. split; [now rewrite Hdata | exact Hu]. }
      split; [rewrite written_cons; cbn; lia|].
      split; [|split; [|split]].
      * intros q Hq. assert (q <> p) by (intros ->; rewrite Hfree in Hq;
                                         now apply is_Some_None in Hq).
        rewrite Hkeep; rewrite (Hother q) by assumption; done.
      * intros w [->|Hin]%elem_of_cons Hok; cbn.
        -- rewrite Hkeep; rewrite (Hret eq_refl); [done | eauto].
        -- now apply Hmine.
      * intros w [->|Hin]%elem_of_cons; cbn; [exact Hfree|].
        specialize (Hnew w Hin).
        destruct (decide (w_path w = p)) as [->|Hne]; [exact Hfree|].
        now rewrite <- (Hother _ Hne).
      * intros q Hq. destruct (decide (q = p)) as [->|Hne]; [left|].
        right. apply Honly. now rewrite (Hother _ Hne).
    + (* the write raised *)
      destruct (IH c files1
                  (out ++ ["保存失败 " +:+ get_filename_from_url (url r)
                             +:+ ": " +:+ e])
                  (tried ++ [mkWrite p (split_data r) false]))
        as (c' & files' & out' & new & u & Hrun & (done & skipped & Hf & Hdata & Hu)
            & Hc & Hkeep & Hmine & Hnew & Honly).
      exists c', files', out', (mkWrite p (split_data r) false :: new), u.
      rewrite Hrun, <- app_assoc. cbn [app map].
      split; [reflexivity|]. split.
      { exists (r :: done), skipped. rewrite Hf. cbn [app map].
        split; [reflexivity|]. split; [now rewrite Hdata | exact Hu]. }
      split; [rewrite written_cons; cbn; lia|].
      split; [|split; [|split]].
      * intros q Hq. assert (q <> p) by (intros ->; rewrite Hfree in Hq;
                                         now apply is_Some_None in Hq).
        rewrite Hkeep; rewrite (Hother q) by assumption; done.
      * intros w [->|Hin]%elem_of_cons Hok; cbn in *; [discriminate|].
        now apply Hmine.
      * intros w [->|Hin]%elem_of_cons; cbn; [exact Hfree|].
        specialize (Hnew w Hin).
        destruct (decide (w_path w = p)) as [->|Hne]; [exact Hfree|].
        now rewrite <- (Hother _ Hne).
      * intros q Hq. destruct (decide (q = p)) as [->|Hne]; [left|].
        right. apply Honly. now rewrite (Hother _ Hne).
Qed.

(** The loop in numbers: one line is printed for every write that raised;
    the writes that completed went to pairwise different paths; the folder
    gained a file for each of them and at most one for each of the
    others. *)
Lemma save_split_loop_counts (folder : string) (rest : list FetchResult) :
  forall (c : nat) (files : gmap string string) (out : list string)
         (tried : list Write),
  exists c' files' out' new u lines,
    save_split_loop' folder rest c files out tried
      = Some (c', files', out', tried ++ new, u)
    /\ out' = out ++ lines
    /\ length lines + written new = length new
    /\ NoDup (map w_path (List.filter w_ok new))
    /\ size files + written new <= size files' <= size files + length new
    /\ (forall w, w ∈ new -> files !! w_path w = None).
Proof.
  induction rest as [|r rest IH]; intros c files out tried.
  - exists c, files, out, [], None, []. cbn. rewrite !app_nil_r.
    unfold written. cbn.
    repeat split; try done; try lia; [apply NoDup_nil_2|].
    intros w Hw. now apply not_elem_of_nil in Hw.
  - cbn [save_split_loop].
    destruct (success r) eqn:Hs; [|apply IH].
    destruct (free_path_total files folder (get_filename_from_url (url r)))
      as (k & o & -> & _ & Hend).
    destruct (stat_error' files _) as [e|]; [subst o | destruct Hend as [Hfree ->]].
    { exists c, files, out, [], (Some e), []. rewrite !app_nil_r.
      unfold written. cbn.
      repeat split; try done; try lia; [apply NoDup_nil_2|].
      intros w Hw. now apply not_elem_of_nil in Hw. }
    set (p := candidate folder (get_filename_from_url (url r)) k) in *.
    pose proof (fun q => write_file_other p (split_data r) q files) as Hother.
    pose proof (write_file_returned p (split_data r) files) as Hret.
    pose proof (write_file_size p (split_data r) files Hfree) as [Hsz Hsz1].
    destruct (write_file' p (split_data r) files) as [[[]|e] files1] eqn:Hw;
      cbn [fst snd] in Hother, Hret, Hsz, Hsz1.
    + destruct (IH (c + 1) files1 out (tried ++ [mkWrite p (split_data r) true]))
        as (c' & files' & out' & new & u & lines & Hrun & Hout & Hlen & Hnd
            & Hsize & Hnew).
      exists c', files', out', (mkWrite p (split_data r) true :: new), u, lines.
      rewrite Hrun, <- app_assoc. cbn [app map length List.filter w_ok].
      rewrite written_cons. cbn [w_ok]. specialize (Hsz1 eq_refl).
      split; [reflexivity|]. split; [exact Hout|]. split; [lia|].
      split; [|split; [lia|]].
      * cbn [map w_path]. apply NoDup_cons_2; [|exact Hnd].
        intros Hin. apply list_elem_of_fmap in Hin as (w & Hp & Hin).
        apply list_elem_of_In, List.filter_In in Hin as [Hin _].
        apply list_elem_of_In in Hin.
        specialize (Hnew w Hin). rewrite <- Hp, (Hret eq_refl) in Hnew.
        discriminate.
      * intros w [->|Hin]%elem_of_cons; cbn; [exact Hfree|].
        specialize (Hnew w Hin).
        destruct (decide (w_path w = p)) as [->|Hne]; [exact Hfree|].
        now rewrite <- (Hother _ Hne).
    + destruct (IH c files1
                  (out ++ ["保存失败 " +:+ get_filename_from_url (url r)
                             +:+ ": " +:+ e])
                  (tried ++ [mkWrite p (split_data r) false]))
        as (c' & files' & out' & new & u & lines & Hrun & Hout & Hlen & Hnd
            & Hsize & Hnew).
      exists c', files', out', (mkWrite p (split_data r) false :: new), u,
        (("保存失败 " +:+ get_filename_from_url (url r) +:+ ": " +:+ e) :: lines).
      rewrite Hrun, <- app_assoc. cbn [app map length List.filter w_ok].
      rewrite written_cons. cbn [w_ok].
      split; [reflexivity|].
      split; [now rewrite Hout, <- app_assoc|]. split; [lia|].
      split; [exact Hnd|]. split; [lia|].
      intros w [->|Hin]%elem_of_cons; cbn; [exact Hfree|].
      specialize (Hnew w Hin).
      destruct (decide (w_path w = p)) as [->|Hne]; [exact Hfree|].
      now rewrite <- (Hother _ Hne).
Qed.

(** The split branch of [save_markdown] in terms of its loop: the message
    box is shown when the loop ended without exception. *)
Lemma save_markdown_split (win : MarkdownMerger) (files : gmap string string)
    (folder : string) :
  markdown_results win <> [] -> merge_radio win = false ->
  folder <> EmptyString ->
  exists c' files' out' new u,
    save_split_loop' folder (markdown_results win) 0 files [] []
      = Some (c', files', out', new, u)
    /\ save_markdown fault folder win files
       = Some (mkSaved
                 (match u with
                  | Some _ => win
                  | None =>
                      show_box
                        (information "完成"
                           (split_tally c' (length (markdown_results win)) folder))
                        win
                  end)
                 files' out' new u).
Proof.
  intros Hres Hmode Hfolder.
  destruct (save_split_loop_spec folder (markdown_results win) 0 files [] [])
    as (c' & files' & out' & new & u & Hrun & _).
  exists c', files', out', new, u. cbn [app] in Hrun. split; [exact Hrun|].
  unfold save_markdown.
  destruct (markdown_results win) as [|r rs] eqn:E; [done|].
  rewrite Hmode, (is_empty_false folder Hfolder), Hrun. now destruct u.
Qed.

(** Two results with the same base name, saved into a folder that has
    neither the plain name nor the name with suffix 1, both of which can be
    examined: the first file is written under the plain name and keeps its
    text, the second write goes to the name with suffix 1. *)
Lemma same_base_name_twice (folder base : string) (r1 r2 : FetchResult)
    (files : gmap string string) :
  success r1 = true -> success r2 = true ->
  get_filename_from_url (url r1) = base ->
  get_filename_from_url (url r2) = base ->
  files !! path_join folder (base +:+ ".md") = None ->
  files !! path_join folder (base +:+ "_1.md") = None ->
  fault files (path_join folder (base +:+ ".md")) = None ->
  (forall present,
     stat_error' present (path_join folder (base +:+ ".md")) = None
     /\ stat_error' present (path_join folder (base +:+ "_1.md")) = None) ->
  exists c' files' out' ok2,
    save_split_loop' folder [r1; r2] 0 files [] []
      = Some (c', files', out',
              [mkWrite (path_join folder (base +:+ ".md")) (split_data r1) true;
               mkWrite (path_join folder (base +:+ "_1.md")) (split_data r2) ok2],
              None)
    /\ files' !! path_join folder (base +:+ ".md") = Some (split_data r1).
Proof.
  intros Hs1 Hs2 Hb1 Hb2 Hfree0 Hfree1 Hok Hstat.
  change (path_join folder (base +:+ ".md")) with (candidate folder base 0) in *.
  change (path_join folder (base +:+ "_1.md")) with (candidate folder base 1) in *.
  assert (Hne : candidate folder base 1 <> candidate folder base 0)
    by (intros H; now apply candidate_inj in H).
  cbn [save_split_loop]. rewrite Hs1, Hs2, Hb1, Hb2.
  rewrite (free_path_first files folder base 0 (Returned (candidate folder base 0))).
  2:{ split; [intros i Hi; lia|]. now rewrite (proj1 (Hstat files)). }
  unfold write_file at 1. rewrite Hok. cbn [app].
  rewrite (free_path_first _ folder base 1 (Returned (candidate folder base 1))).
  - pose proof (write_file_other (candidate folder base 1) (split_data r2)
                  (candidate folder base 0)
                  (<[candidate folder base 0 := split_data r1]> files)
                  (not_eq_sym Hne)) as Hkeep.
    rewrite lookup_insert_eq in Hkeep.
    destruct (write_file' (candidate folder base 1) (split_data r2) _)
      as [[[]|e] files2]; cbn [snd] in Hkeep; eauto 10.
  - split.
    + intros i Hi. assert (i = 0) as -> by lia.
      split; [apply Hstat|]. rewrite lookup_insert_eq. eauto.
    + rewrite (proj2 (Hstat _)). split; [|reflexivity].
      now rewrite lookup_insert_ne.
Qed.



End SplitFacts.

(** ** Concrete saves *)





Lemma merged_save_concatenation_read_back_witness :
  exists saved,
    save_markdown no_fault "merged.md"
      (window (fetch_completed unit example_batch (init_session tt))) ∅
      = Some saved
    /\ writes saved
       = [mkWrite "merged.md" (Spec.merged_document example_batch) true]
    /\ saved_files saved
       = <[ "merged.md" := Spec.merged_document example_batch ]> ∅.
Proof.
  destruct (merged_save_concatenation_read_back unit no_fault (init_session tt)
              example_batch ∅ "merged.md")
    as (saved & Hs & _ & _ & _ & Hsafe);
    [discriminate | reflexivity | discriminate | reflexivity |].
  exists saved. split; [exact Hs|]. exact (Hsafe eq_refl).
Defined.

(** Counterexample to the unamended C6: a page whose text holds a no-break
    space.  The preview widget gives a plain space back for it, so the file
    is not the concatenation of heading, blank line, content and rule. *)
Lemma merged_save_replaces_no_break_space :
  exists saved,
    save_markdown no_fault "merged.md"
      (window (fetch_completed unit nbsp_batch (init_session tt))) ∅
      = Some saved
    /\ saved_files saved !! "merged.md"
       = Some ("# https://ok.test/a" +:+ Py.LF +:+ Py.LF +:+ "10 km"
               +:+ Py.LF +:+ Py.LF +:+ "---" +:+ Py.LF +:+ Py.LF)
    /\ saved_files saved !! "merged.md" <> Some (Spec.merged_document nbsp_batch).
Proof.
  eexists. split; [vm_compute; reflexivity|].
  split; [vm_compute; reflexivity|].
  vm_compute. discriminate.
Qed.

(** ** Filename derivation against the eight steps of the specification *)

Section NameFacts.

Import Spec.

Lemma split_go_nonempty (sep : string) (s : string) :
  forall k, Py.split_go sep k s <> [].
Proof.
  induction s as [|c s IH]; intros k; cbn [Py.split_go]; [discriminate|].
  destruct k as [|k]; [|apply IH].
  destruct (String.prefix sep (String c s)); [discriminate|].
  destruct (Py.split_go sep 0 s); discriminate.
Qed.

Lemma prefix_length (a b : string) :
  String.prefix a b = true -> String.length a <= String.length b.
Proof.
  revert b. induction a as [|x a IH]; intros b H; cbn; [lia|].
  destruct b as [|y b]; cbn in H; [discriminate|].
  destruct (ascii_dec x y); [|discriminate].
  apply IH in H. cbn. lia.
Qed.

(** Passing the rest of a matched separator is dropping it. *)
Lemma split_go_skip (sep : string) (s : string) :
  forall k, k <= String.length s ->
    Py.split_go sep k s = Py.split_go sep 0 (Py.drop k s).
Proof.
  induction s as [|c s IH]; intros k Hk.
  - cbn in Hk. now replace k with 0 by lia.
  - destruct k as [|k]; [reflexivity|].
    cbn [Py.split_go Py.drop]. apply IH. cbn in Hk. lia.
Qed.

(** [split] cuts at the first occurrence and goes on in the rest. *)
Lemma split_first (x : ascii) (sep' s : string) :
  Py.split (String x sep') s =
  match after_first (String x sep') s with
  | None => [s]
  | Some rest => before_first (String x sep') s :: Py.split (String x sep') rest
  end.
Proof.
  unfold Py.split.
  induction s as [|c s IH]; [reflexivity|].
  cbn [Py.split_go after_first before_first].
  destruct (String.prefix (String x sep') (String c s)) eqn:P.
  - f_equal. cbn [String.length Nat.pred Py.drop].
    apply split_go_skip.
    apply prefix_length in P. cbn in P. lia.
  - rewrite IH. now destruct (after_first (String x sep') s).
Qed.

Lemma contains_after_first (sep s : string) :
  Py.contains sep s = false -> after_first sep s = None.
Proof.
  induction s as [|c s IH]; [reflexivity|].
  cbn [Py.contains after_first].
  intros [P C]%orb_false_iff. rewrite P. now apply IH.
Qed.

Lemma contains_rpartition (sep s : string) :
  Py.contains sep s = false -> Py.rpartition sep s = None.
Proof.
  induction s as [|c s IH]; [reflexivity|].
  cbn [Py.contains Py.rpartition].
  intros [P C]%orb_false_iff. now rewrite (IH C), P.
Qed.

(** [s.split(sep)[0]] is the text before the first occurrence. *)
Lemma split_head (sep s : string) :
  item 0 (Py.split sep s) = before_first sep s.
Proof.
  unfold Py.split.
  induction s as [|c s IH]; [reflexivity|].
  cbn [Py.split_go before_first].
  destruct (String.prefix sep (String c s)); [reflexivity|].
  rewrite <- IH. now destruct (Py.split_go sep 0 s).
Qed.

(** [url.split('://')[-1]] is the URL without its scheme prefix when no
    further [://] follows. *)
Lemma split_scheme_last (u : string) :
  Py.contains "://" (strip_scheme u) = false ->
  last_item (Py.split "://" u) = strip_scheme u.
Proof.
  unfold strip_scheme. rewrite split_first.
  destruct (after_first "://" u) as [rest|]; [|reflexivity].
  intros H. rewrite split_first, (contains_after_first _ _ H). reflexivity.
Qed.

Lemma base_name_items (h : string) (segs : list string) :
  (if 2 <=? length segs then
     item (length segs - 2) segs +:+ "_" +:+ item (length segs - 1) segs
   else if length segs =? 1 then
     first_label h +:+ "_" +:+ item 0 segs
   else first_label h)
  = base_name h segs.
Proof.
  unfold base_name.
  generalize (rev_involutive segs).
  destruct (List.rev segs) as [|a [|b t]]; intros <-; [reflexivity..|].
  cbn [List.rev]. rewrite <- !app_assoc. cbn [app].
  rewrite !length_app, length_rev. cbn [length].
  replace (2 <=? length t + 2) with true by (symmetry; apply Nat.leb_le; lia).
  unfold item.
  rewrite !app_nth2 by (rewrite length_rev; lia).
  rewrite length_rev.
  replace (length t + 2 - 2 - length t) with 0 by lia.
  replace (length t + 2 - 1 - length t) with 1 by lia.
  reflexivity.
Qed.

(** On a URL with no [://] after its scheme prefix the program computes
    the name of the specification's eight steps. *)
Lemma get_filename_from_url_refines (u : string) :
  Py.contains "://" (strip_scheme u) = false ->
  get_filename_from_url u = deriveName u.
Proof.
  intros H. unfold get_filename_from_url, deriveName.
  rewrite (split_scheme_last u H), !split_head.
  fold (strip_query_and_fragment (strip_scheme u)).
  set (parts := Py.split "/" (strip_query_and_fragment (strip_scheme u))).
  assert (Hparts : parts <> []) by apply split_go_nonempty.
  destruct parts as [|d rest] eqn:E; [done|].
  cbn [host path_segments List.hd List.tl].
  fold (first_label d). rewrite base_name_items.
  set (name := re_sub_illegal _).
  unfold drop_extension, Py.rsplit1.
  destruct (Py.contains "." name) eqn:C.
  - now destruct (Py.rpartition "." name) as [[before after]|].
  - now rewrite (contains_rpartition _ _ C).
Qed.

End NameFacts.

(** C1. The program's name is not the name of the eight steps on every
    URL: where [://] occurs again after the scheme, here inside the query
    string, [split('://')[-1]] drops the host and the path as well, and the
    name comes from the query's URL.  The three examples of the
    specification do hold. *)
Theorem scheme_inside_query_diverges :
  get_filename_from_url "https://example.com/redirect?to=https://other.org/x/y"
    = "x_y"
  /\ Spec.deriveName "https://example.com/redirect?to=https://other.org/x/y"
     = "example_redirect"
  /\ get_filename_from_url "https://example.com/docs/guide.html" = "docs_guide"
  /\ get_filename_from_url "https://example.com/about" = "example_about"
  /\ get_filename_from_url "https://example.com" = "example".
Proof. repeat split; reflexivity. Qed.

(** * Further properties of the handlers *)

(** ** Invariants of the running application *)

Section ApplicationFacts.

Variable World : Type.
Variable requests_get : string -> World -> Outcome Response * World.
Variable raise_for_status : Response -> option string.
Variable handle : string -> World -> Outcome string * World.
Variable fault : gmap string string -> string -> option Fault.

Local Abbreviation App' := (App World).
Local Abbreviation act' := (act World requests_get raise_for_status handle fault).
Local Abbreviation run_actions' :=
  (run_actions World requests_get raise_for_status handle fault).
Local Abbreviation reachable' :=
  (reachable World requests_get raise_for_status handle fault).
Local Abbreviation thread_ok' :=
  (thread_ok World requests_get raise_for_status handle).
Local Abbreviation app_inv' :=
  (app_inv World requests_get raise_for_status handle).
Local Abbreviation in_flight'' :=
  (in_flight World requests_get raise_for_status handle).
Local Abbreviation batch'' := (batch World requests_get raise_for_status handle).
Local Abbreviation run'' := (run World requests_get raise_for_status handle).

Implicit Type a : App World.
Implicit Type s : Session World.

Lemma same_controls_refl (win : MarkdownMerger) : same_controls win win.
Proof. repeat split. Qed.

Lemma show_box_controls (b : MessageBox) (win : MarkdownMerger) :
  same_controls win (show_box b win).
Proof. repeat split. Qed.

(** A step that leaves the thread, the world, the controls and the count
    of delivered signals alone, and changes the store at most behind
    [self.url_list], keeps the window and thread invariants. *)
Lemma quiet_step_ok a a' :
  frame World (session a) (session a') ->
  same_controls (window (session a)) (window (session a')) ->
  delivered a' = delivered a ->
  window_ok World a -> thread_ok' a ->
  window_ok World a' /\ thread_ok' a'.
Proof.
  intros Hframe (Hr & Hp & Hf & Hs & Hv & Hval & Hmax) Hd Hwin Hthr.
  split.
  - destruct Hwin as (H1 & H2 & H3). unfold window_ok.
    rewrite Hp, Hr, Hs, Hval, Hmax. auto.
  - unfold thread_ok in *. destruct Hframe as (Ht & Hframe').
    rewrite Ht, Hd, Hf, Hs, Hr, Hv, Hval, Hmax.
    destruct (fetch_thread (session a)) as [t|] eqn:Et; [|exact Hthr].
    destruct Hthr as (l & w0 & k & Hne & Hfl & Hrest).
    exists l, w0, k. split; [exact Hne|]. split; [|exact Hrest].
    eapply frame_in_flight; [|exact Hfl].
    split; [now rewrite Ht, Et | exact Hframe'].
Qed.

(** The URL-list invariant depends only on the list object and the list
    widget. *)
Lemma urls_ok_same a a' :
  store (session a') !! url_list (window (session a'))
    = store (session a) !! url_list (window (session a)) ->
  url_list_widget (window (session a')) = url_list_widget (window (session a)) ->
  urls_ok World a -> urls_ok World a'.
Proof.
  intros Hst Hw (l & Hl & Hall & Hwid). exists l.
  rewrite Hst, Hw. auto.
Qed.

Lemma init_app_inv (w : World) (files : gmap string string) :
  app_inv' (init_app World w files).
Proof.
  split; [|split].
  - exists []. repeat split. constructor.
  - repeat split; cbn; [discriminate | lia].
  - split; reflexivity.
Qed.

Lemma add_url_inv (u : string) a :
  app_inv' a -> app_inv' (on_session World (add_url World u) a).
Proof.
  intros (Hurls & Hwin & Hthr).
  assert (Hq : window_ok World (on_session World (add_url World u) a)
               /\ thread_ok' (on_session World (add_url World u) a)).
  { apply (quiet_step_ok a); try assumption; cbn [on_session session delivered].
    - apply add_url_frame.
    - unfold add_url. destruct (is_empty u); [apply same_controls_refl|].
      destruct (_ || _); repeat split.
    - reflexivity. }
  split; [|exact Hq].
  destruct Hurls as (l & Hl & Hall & Hwid).
  unfold urls_ok, on_session, add_url. cbn [session].
  destruct (is_empty u); [exists l; auto|].
  destruct (Py.startswith u "http://" || Py.startswith u "https://") eqn:Hv.
  - exists (l ++ [u]). cbn. rewrite lookup_insert_eq, (deref_lookup _ _ _ Hl), Hwid.
    repeat split. apply Forall_app. split; [exact Hall|]. now constructor.
  - exists l. auto.
Qed.

Lemma remove_url_inv (row : Z) a :
  app_inv' a -> app_inv' (on_session World (remove_url World row) a).
Proof.
  intros (Hurls & Hwin & Hthr).
  assert (Hq : window_ok World (on_session World (remove_url World row) a)
               /\ thread_ok' (on_session World (remove_url World row) a)).
  { apply (quiet_step_ok a); try assumption; cbn [on_session session delivered].
    - apply remove_url_frame.
    - unfold remove_url. destruct (0 <=? row)%Z; [|apply same_controls_refl].
      destruct (pop _ _); [repeat split | apply same_controls_refl].
    - reflexivity. }
  split; [|exact Hq].
  destruct Hurls as (l & Hl & Hall & Hwid).
  unfold urls_ok, on_session, remove_url. cbn [session].
  destruct (0 <=? row)%Z; [|exists l; auto].
  rewrite (deref_lookup _ _ _ Hl). unfold pop.
  destruct (Z.to_nat row <? length l); [|exists l; auto].
  exists (delete (Z.to_nat row) l). cbn. rewrite lookup_insert_eq, Hwid.
  repeat split. now apply Forall_delete.
Qed.

Lemma clear_urls_inv a :
  app_inv' a -> app_inv' (on_session World (clear_urls World) a).
Proof.
  intros (Hurls & Hwin & Hthr).
  assert (Hq : window_ok World (on_session World (clear_urls World) a)
               /\ thread_ok' (on_session World (clear_urls World) a)).
  { apply (quiet_step_ok a); try assumption; cbn [on_session session delivered].
    - apply clear_urls_frame.
    - repeat split.
    - reflexivity. }
  split; [|exact Hq].
  exists []. unfold on_session, clear_urls. cbn. rewrite lookup_insert_eq.
  repeat split. constructor.
Qed.

Lemma with_window_inv (win' : MarkdownMerger) a :
  url_list win' = url_list (window (session a)) ->
  url_list_widget win' = url_list_widget (window (session a)) ->
  same_controls (window (session a)) win' ->
  app_inv' a ->
  app_inv' (on_session World (fun s => with_window World s win') a).
Proof.
  intros Hu Hw Hc (Hurls & Hwin & Hthr).
  split.
  - apply (urls_ok_same a); [|exact Hw|exact Hurls].
    cbn. now rewrite Hu.
  - apply (quiet_step_ok a); try assumption; cbn; [|reflexivity].
    repeat split. exact Hu.
Qed.

Lemma worker_step_window s :
  window (worker_step World requests_get raise_for_status handle s) = window s
  /\ store (worker_step World requests_get raise_for_status handle s) = store s.
Proof.
  unfold worker_step. destruct (fetch_thread s) as [t|]; [|done].
  destruct (returned t); [done|].
  destruct (_ !! _); [|now destruct (finished_emitted t)].
  now destruct (fetch_one _ _ _ _ _ _).
Qed.

Lemma worker_step_inv a :
  app_inv' a ->
  app_inv' (on_session World
              (worker_step World requests_get raise_for_status handle) a).
Proof.
  intros (Hurls & Hwin & Hthr).
  destruct (worker_step_window (session a)) as [Hw Hst].
  split; [|split].
  - apply (urls_ok_same a); cbn; [now rewrite Hw, Hst | now rewrite Hw | exact Hurls].
  - unfold window_ok in *. cbn [on_session session]. now rewrite Hw.
  - unfold thread_ok in *. cbn [on_session session delivered]. rewrite Hw.
    destruct (fetch_thread (session a)) as [t|] eqn:Et.
    + destruct Hthr as (l & w0 & k & Hne & Hfl & Hdel & Hrest).
      pose proof (worker_step_in_flight _ _ _ _ _ _ _ _ Hfl)
        as (t' & Ht' & Hfl').
      rewrite Ht'. exists l, w0, (S k). split; [exact Hne|].
      split; [exists t'; split; [exact Ht' | exact Hfl']|].
      split; [|exact Hrest].
      destruct Hfl as (t0 & Ht0 & _ & _ & _ & _ & _ & Hem & _).
      rewrite Et in Ht0. injection Ht0 as <-.
      destruct Hfl' as (_ & _ & _ & _ & _ & Hem' & _).
      rewrite Hem in Hdel. rewrite Hem'. rewrite !length_take in *. lia.
    + unfold worker_step. rewrite Et. cbv beta iota. now rewrite Et.
Qed.

Lemma click_fetch_inv a :
  app_inv' a -> app_inv' (click_fetch World a).
Proof.
  intros Hinv. unfold click_fetch.
  destruct (fetch_btn (window (session a))) eqn:Hbtn; [|exact Hinv].
  destruct Hinv as (Hurls & Hwin & Hthr).
  destruct Hurls as (l & Hl & Hall & Hwid).
  pose proof (deref_lookup _ _ _ Hl) as Hd. rewrite Hd.
  destruct l as [|u l'].
  - (* rejected *)
    unfold start_fetch. rewrite Hd.
    apply (with_window_inv
             (show_box (warning "提示" "请先添加URL") (window (session a))) a);
      try reflexivity; [apply show_box_controls|].
    split; [exists []; auto | split; assumption].
  - (* launched *)
    pose proof (start_fetch_in_flight World requests_get raise_for_status handle
                  (session a) (u :: l') Hd ltac:(discriminate)) as Hfl.
    assert (Hfresh : fresh (dom (store (session a))) <> url_list (window (session a))).
    { intros Heq. apply (is_fresh (dom (store (session a)))).
      rewrite Heq. apply elem_of_dom. eauto. }
    unfold start_fetch in *. rewrite Hd in *.
    split; [|split].
    + exists (u :: l'). cbn. rewrite lookup_insert_ne by exact Hfresh. auto.
    + destruct Hwin as (H1 & H2 & H3). repeat split; cbn; [exact H1 | discriminate | lia].
    + unfold thread_ok. cbn [session fetch_thread delivered window].
      exists (u :: l'), (world (session a)), 0.
      split; [discriminate|]. split; [exact Hfl|]. split; [cbn; lia|].
      destruct (decide (0 = S (length (u :: l')))); [lia|]. repeat split.
Qed.

Lemma save_markdown_window (chosen : string) (win : MarkdownMerger)
    (files : gmap string string) (saved : Saved) :
  save_markdown fault chosen win files = Some saved ->
  saved_window saved = win \/ exists b, saved_window saved = show_box b win.
Proof.
  unfold save_markdown.
  destruct (markdown_results win); [intros [= <-]; now left|].
  destruct (merge_radio win), (is_empty chosen);
    try (intros [= <-]; now left).
  - destruct (write_file fault chosen _ files) as [[[]|e] fs];
      intros [= <-]; right; eauto.
  - destruct (save_split_loop _ _ _ _ _ _ _) as [[[[[c fs] o] t] [e|]]|];
      [| |discriminate]; intros [= <-]; [now left | right; eauto].
Qed.

Lemma click_save_inv (chosen : string) a :
  app_inv' a -> app_inv' (click_save World fault chosen a).
Proof.
  intros Hinv. unfold click_save.
  destruct (save_btn (window (session a))); [|exact Hinv].
  destruct (save_markdown fault chosen (window (session a)) (disk a))
    as [saved|] eqn:E; [|exact Hinv].
  assert (Hgoal : app_inv'
            (on_session World
               (fun s => with_window World s (saved_window saved)) a)).
  { destruct (save_markdown_window _ _ _ _ E) as [->|[b ->]];
      apply with_window_inv; try reflexivity; try exact Hinv;
      [apply same_controls_refl | apply show_box_controls]. }
  destruct Hgoal as (H1 & H2 & H3). split; [|split]; assumption.
Qed.

Lemma run_signal_at (l : list string) (w0 : World) (d : nat) (x : Signal) :
  (run'' l w0).1 !! d = Some x ->
  (d < length l /\ x = progress (d + 1) (length l))
  \/ (d = length l /\ x = finished (batch'' l w0)).
Proof.
  intros H.
  destruct (decide (d < length l)) as [Hlt|Hge].
  - left. split; [exact Hlt|].
    rewrite (run_signals_lookup _ _ _ _ l w0 d Hlt) in H. now injection H.
  - right. pose proof (lookup_lt_Some _ _ _ H) as Hlen.
    rewrite run_signals_length in Hlen.
    assert (d = length l) as -> by lia. split; [reflexivity|].
    rewrite run_unfold in H. cbn [fst] in H.
    rewrite lookup_app_r in H by (rewrite progress_from_length; lia).
    rewrite progress_from_length, Nat.sub_diag in H. now injection H.
Qed.

Lemma deliver_inv a : app_inv' a -> app_inv' (deliver World a).
Proof.
  intros Hinv. unfold deliver.
  destruct (fetch_thread (session a)) as [t|] eqn:Et; [|exact Hinv].
  destruct (emitted t !! delivered a) as [x|] eqn:Ex; [|exact Hinv].
  destruct Hinv as (Hurls & Hwin & Hthr).
  pose proof Hthr as Hthr0.
  unfold thread_ok in Hthr. rewrite Et in Hthr.
  destruct Hthr as (l & w0 & k & Hne & Hfl & Hdel & Hrest).
  pose proof Hfl as (t0 & Ht0 & _ & _ & _ & _ & _ & Hem & _).
  rewrite Et in Ht0. injection Ht0 as <-.
  assert (Hx : (run'' l w0).1 !! delivered a = Some x).
  { rewrite Hem in Ex. now apply lookup_take_Some in Ex as [Ex _]. }
  pose proof (lookup_lt_Some _ _ _ Ex) as Hlt.
  assert (Hlen : length l <> 0) by (destruct l; [done | cbn; lia]).
  destruct (run_signal_at l w0 _ x Hx) as [[Hd ->]|[Hd ->]];
    (destruct (decide (delivered a = S (length l))) as [?|_]; [lia|]);
    destruct Hrest as (Hf & Hs & Hmax & Hval & Hvis);
    destruct Hwin as (Hprev & Hsave & Hbound).
  - (* a progress signal *)
    split; [|split].
    + apply (urls_ok_same a); [reflexivity..|exact Hurls].
    + repeat split; cbn; [exact Hprev | exact Hsave | rewrite Hmax; lia].
    + unfold thread_ok. cbn [session delivered update_progress with_window
                             fetch_thread window].
      rewrite Et. exists l, w0, k. split; [exact Hne|].
      split; [eapply frame_in_flight; [|exact Hfl]; repeat split|].
      split; [lia|].
      destruct (decide (S (delivered a) = S (length l))); [lia|].
      cbn. repeat split; try assumption. f_equal. lia.
  - (* the finished signal *)
    split; [|split].
    + apply (urls_ok_same a); [reflexivity..|exact Hurls].
    + repeat split; cbn; [|exact Hbound].
      intros _ Hnil. apply (f_equal length) in Hnil.
      rewrite batch_length in Hnil. cbn in Hnil. lia.
    + unfold thread_ok. cbn [session delivered fetch_completed with_window
                             fetch_thread window].
      rewrite Et. exists l, w0, k. split; [exact Hne|].
      split; [eapply frame_in_flight; [|exact Hfl]; repeat split|].
      split; [lia|].
      destruct (decide (S (delivered a) = S (length l))); [|lia].
      cbn. repeat split.
Qed.

Lemma act_inv (x : Action) a : app_inv' a -> app_inv' (act' x a).
Proof.
  intros Hinv. destruct x; cbn [act].
  - now apply add_url_inv.
  - now apply remove_url_inv.
  - now apply clear_urls_inv.
  - now apply click_fetch_inv.
  - now apply click_save_inv.
  - apply with_window_inv; try reflexivity; [repeat split | exact Hinv].
  - apply with_window_inv; try reflexivity; [repeat split | exact Hinv].
  - now apply worker_step_inv.
  - now apply deliver_inv.
Qed.

Lemma run_actions_inv (actions : list Action) : forall a,
  app_inv' a -> app_inv' (run_actions' actions a).
Proof.
  induction actions as [|x xs IH]; intros a Hinv; [exact Hinv|].
  cbn [run_actions fold_left]. apply IH, act_inv, Hinv.
Qed.

(** Every state the application can reach satisfies the three invariants. *)
Lemma reachable_inv a : reachable' a -> app_inv' a.
Proof.
  intros (actions & w & files & ->). apply run_actions_inv, init_app_inv.
Qed.

(** X1. Only URLs that pass the scheme test of [add_url] are ever in the
    URL list: in every reachable state each entry starts with [http://] or
    [https://]. *)
Theorem url_list_only_valid_schemes a :
  reachable World requests_get raise_for_status handle fault a ->
  Forall (fun u => valid_scheme u = true) (current_urls World a).
Proof.
  intros Hr. destruct (reachable_inv a Hr) as ((l & Hl & Hall & _) & _).
  unfold current_urls. now rewrite (deref_lookup _ _ _ Hl).
Qed.

(** X2. The list widget always shows exactly the URL list: [add_url],
    [remove_url] and [clear_urls] change both together, and an
    out-of-range [pop] leaves both alone. *)
Theorem list_widget_mirrors_url_list a :
  reachable World requests_get raise_for_status handle fault a ->
  url_list_widget (window (session a)) = current_urls World a.
Proof.
  intros Hr. destruct (reachable_inv a Hr) as ((l & Hl & _ & Hw) & _).
  unfold current_urls. now rewrite (deref_lookup _ _ _ Hl).
Qed.

(** X3. In every reachable state the preview is the text assembled from
    the stored batch, and whenever the save button is enabled the stored
    batch is not empty, so a click on it never ends at the early return of
    [save_markdown]. *)
Theorem preview_matches_stored_batch a :
  reachable World requests_get raise_for_status handle fault a ->
  preview_text (window (session a))
    = merged_content (markdown_results (window (session a)))
  /\ (save_btn (window (session a)) = true ->
      markdown_results (window (session a)) <> []).
Proof.
  intros Hr. destruct (reachable_inv a Hr) as (_ & (Hp & Hs & _) & _). auto.
Qed.

(** X4. The value of the progress bar never exceeds its maximum. *)
Theorem progress_bar_within_range a :
  reachable World requests_get raise_for_status handle fault a ->
  (progress_bar_value (window (session a))
   <= Z.of_nat (progress_bar_maximum (window (session a))))%Z.
Proof.
  intros Hr. now destruct (reachable_inv a Hr) as (_ & (_ & _ & Hb) & _).
Qed.

(** X5. While the fetch button is disabled a batch is in flight: there is
    a thread that works on a list object of its own, which is not empty and
    not the URL list; the save button is disabled, the progress bar is
    visible with the size of that list as maximum, and the [finished]
    signal has not been delivered. *)
Theorem disabled_fetch_means_batch_in_flight a :
  reachable World requests_get raise_for_status handle fault a ->
  fetch_btn (window (session a)) = false ->
  exists t l,
    fetch_thread (session a) = Some t
    /\ store (session a) !! urls t = Some l
    /\ l <> []
    /\ urls t <> url_list (window (session a))
    /\ save_btn (window (session a)) = false
    /\ progress_bar_visible (window (session a)) = true
    /\ progress_bar_maximum (window (session a)) = length l
    /\ delivered a <= length l.
Proof.
  intros Hr Hbtn. destruct (reachable_inv a Hr) as (_ & _ & Hthr).
  unfold thread_ok in Hthr.
  destruct (fetch_thread (session a)) as [t|] eqn:Et;
    [|destruct Hthr; congruence].
  destruct Hthr as (l & w0 & k & Hne & Hfl & Hdel & Hrest).
  destruct Hfl as (t0 & Ht0 & Hneq & Hst & _ & _ & _ & Hem & _).
  rewrite Et in Ht0. injection Ht0 as <-.
  destruct (decide (delivered a = S (length l))) as [_|Hnot];
    [destruct Hrest; congruence|].
  destruct Hrest as (_ & Hs & Hmax & _ & Hvis).
  exists t, l. repeat split; try assumption.
  rewrite Hem, length_take, run_signals_length in Hdel. lia.
Qed.

(** X6. Once a thread exists and the fetch button is enabled again, the
    thread has emitted [finished] with its results as its last signal,
    every signal was delivered, and the stored batch is the list the thread
    built: one result per entry of the thread's own URL list, in order.  The
    save button is enabled and the progress bar hidden.  (Whether [run] has
    returned by then is open: [finished] is emitted before it returns.) *)
Theorem enabled_fetch_means_batch_stored a (t : FetchThread) :
  reachable World requests_get raise_for_status handle fault a ->
  fetch_thread (session a) = Some t ->
  fetch_btn (window (session a)) = true ->
  last (emitted t) = Some (finished (results t))
  /\ markdown_results (window (session a)) = results t
  /\ map url (markdown_results (window (session a)))
     = deref (store (session a)) (urls t)
  /\ delivered a = length (emitted t)
  /\ save_btn (window (session a)) = true
  /\ progress_bar_visible (window (session a)) = false.
Proof.
  intros Hr Et Hbtn. destruct (reachable_inv a Hr) as (_ & _ & Hthr).
  unfold thread_ok in Hthr. rewrite Et in Hthr.
  destruct Hthr as (l & w0 & k & Hne & Hfl & Hdel & Hrest).
  destruct Hfl as (t0 & Ht0 & _ & Hst & _ & Hres & _ & Hem & _).
  rewrite Et in Ht0. injection Ht0 as <-.
  destruct (decide (delivered a = S (length l))) as [Hall|_];
    [|destruct Hrest; congruence].
  destruct Hrest as (_ & Hs & Hm & Hvis).
  rewrite Hem, length_take, run_signals_length in Hdel.
  assert (Hk : length l < k) by lia.
  rewrite take_ge in Hres by lia.
  split.
  { rewrite Hem, take_ge by (rewrite run_signals_length; lia).
    rewrite run_unfold. cbn [fst]. now rewrite last_snoc, Hres. }
  split; [now rewrite Hm, Hres|].
  split; [rewrite Hm, (deref_lookup _ _ _ Hst); apply batch_urls|].
  split; [rewrite Hem, length_take, run_signals_length; lia|].
  split; assumption.
Qed.

(** C9 (amended). A merged save writes what the preview widget gives back,
    not a text assembled again from the result batch.  In every state the
    application can reach with the save button enabled, a click on it in
    merged mode with a path whose write succeeds puts the widget's reading
    of the preview into the file; the preview is the string assembled from
    the stored batch when it arrived, and the file is that very string when
    it holds none of the characters the widget replaces.  Any window with
    the same preview leads to the same write, whatever its batch. *)
Theorem merged_save_writes_preview_read_back a (chosen : string) :
  reachable World requests_get raise_for_status handle fault a ->
  save_btn (window (session a)) = true ->
  merge_radio (window (session a)) = true ->
  chosen <> EmptyString ->
  fault (disk a) chosen = None ->
  exists saved,
    save_markdown fault chosen (window (session a)) (disk a) = Some saved
    /\ writes saved
       = [mkWrite chosen (qt_plain_text (preview_text (window (session a))))
            true]
    /\ disk (click_save World fault chosen a)
       = <[ chosen := qt_plain_text (preview_text (window (session a))) ]>
           (disk a)
    /\ preview_text (window (session a))
       = merged_content (markdown_results (window (session a)))
    /\ (qt_safe (preview_text (window (session a))) = true ->
        disk (click_save World fault chosen a) !! chosen
        = Some (merged_content (markdown_results (window (session a)))))
    /\ (forall win',
          preview_text win' = preview_text (window (session a)) ->
          markdown_results win' <> [] -> merge_radio win' = true ->
          exists saved',
            save_markdown fault chosen win' (disk a) = Some saved'
            /\ writes saved' = writes saved
            /\ saved_files saved' = saved_files saved).
Proof.
  intros Hr Hbtn Hmerge Hchosen Hok.
  destruct (reachable_inv a Hr) as (_ & (Hprev & Hsave & _) & _).
  destruct (save_merged_writes_preview fault (window (session a)) (disk a)
              chosen (Hsave Hbtn) Hmerge Hchosen)
    as (saved & Hs & Hw & _ & Hf & _).
  rewrite bool_decide_eq_true_2 in Hw by exact Hok. specialize (Hf Hok).
  assert (Hdisk : disk (click_save World fault chosen a) = saved_files saved).
  { unfold click_save. now rewrite Hbtn, Hs. }
  exists saved. split; [exact Hs|]. split; [exact Hw|].
  split; [now rewrite Hdisk|]. split; [exact Hprev|]. split.
  - intros Hsafe. rewrite Hdisk, Hf, lookup_insert_eq.
    now rewrite (qt_plain_text_safe _ Hsafe), Hprev.
  - intros win' Hp' Hres' Hmerge'.
    destruct (save_merged_writes_preview fault win' (disk a) chosen
                Hres' Hmerge' Hchosen)
      as (saved' & Hs' & Hw' & _ & Hf' & _).
    rewrite bool_decide_eq_true_2 in Hw' by exact Hok.
    exists saved'. split; [exact Hs'|].
    now rewrite Hw', Hw, (Hf' Hok), Hf, Hp'.
Qed.

End ApplicationFacts.

Lemma example_app_reachable (actions : list Action) :
  reachable unit (test_get 404) (requests_raise_for_status test_msg)
    test_handle no_fault (example_app actions).
Proof. exists actions, tt, ∅. reflexivity. Defined.

Lemma url_list_only_valid_schemes_witness :
  Forall (fun u => valid_scheme u = true)
    (current_urls unit (example_app mid_flight)).
Proof.
  exact (url_list_only_valid_schemes unit _ _ _ no_fault _
           (example_app_reachable mid_flight)).
Defined.

Lemma list_widget_mirrors_url_list_witness :
  url_list_widget (window (session (example_app full_cycle)))
  = current_urls unit (example_app full_cycle).
Proof.
  exact (list_widget_mirrors_url_list unit _ _ _ no_fault _
           (example_app_reachable full_cycle)).
Defined.

Lemma preview_matches_stored_batch_witness :
  preview_text (window (session (example_app full_cycle)))
    = merged_content (markdown_results (window (session (example_app full_cycle))))
  /\ markdown_results (window (session (example_app full_cycle))) <> [].
Proof.
  destruct (preview_matches_stored_batch unit _ _ _ no_fault _
              (example_app_reachable full_cycle)) as [Hp Hs].
  split; [exact Hp | exact (Hs eq_refl)].
Defined.

Lemma progress_bar_within_range_witness :
  (progress_bar_value (window (session (example_app mid_flight)))
   <= Z.of_nat (progress_bar_maximum (window (session (example_app mid_flight)))))%Z.
Proof.
  exact (progress_bar_within_range unit _ _ _ no_fault _
           (example_app_reachable mid_flight)).
Defined.

Lemma disabled_fetch_means_batch_in_flight_witness :
  exists t l,
    fetch_thread (session (example_app mid_flight)) = Some t
    /\ store (session (example_app mid_flight)) !! urls t = Some l
    /\ l <> []
    /\ urls t <> url_list (window (session (example_app mid_flight)))
    /\ save_btn (window (session (example_app mid_flight))) = false
    /\ progress_bar_visible (window (session (example_app mid_flight))) = true
    /\ progress_bar_maximum (window (session (example_app mid_flight))) = length l
    /\ delivered (example_app mid_flight) <= length l.
Proof.
  exact (disabled_fetch_means_batch_in_flight unit _ _ _ no_fault _
           (example_app_reachable mid_flight) eq_refl).
Defined.

Lemma enabled_fetch_means_batch_stored_witness :
  map url (markdown_results (window (session (example_app full_cycle))))
  = two_urls.
Proof.
  destruct (fetch_thread (session (example_app full_cycle))) as [t|] eqn:Et;
    [|discriminate].
  destruct (enabled_fetch_means_batch_stored unit _ _ _ no_fault _ t
              (example_app_reachable full_cycle) Et eq_refl)
    as (_ & _ & Hu & _).
  rewrite Hu. vm_compute in Et. injection Et as <-. reflexivity.
Defined.

Lemma merged_save_writes_preview_read_back_witness :
  disk (click_save unit no_fault "copy.md" (example_app full_cycle)) !! "copy.md"
  = Some (merged_content
            (markdown_results (window (session (example_app full_cycle))))).
Proof.
  destruct (merged_save_writes_preview_read_back unit _ _ _ no_fault
              (example_app full_cycle) "copy.md"
              (example_app_reachable full_cycle) eq_refl eq_refl
              ltac:(discriminate) eq_refl)
    as (saved & _ & _ & _ & _ & Hsafe & _).
  apply Hsafe. vm_compute. reflexivity.
Defined.

(** Counterexample to the unamended C9: the application after a page whose
    Markdown holds a line separator was fetched.  The preview is the string
    assembled at fetch completion and holds the separator; the file written
    by a click on the save button holds a line feed in its place, so it is
    not that string. *)
Lemma line_separator_saved_as_line_feed :
  reachable unit (test_get 404) (requests_raise_for_status test_msg)
    lsep_handle no_fault lsep_app
  /\ save_btn (window (session lsep_app)) = true
  /\ merge_radio (window (session lsep_app)) = true
  /\ preview_text (window (session lsep_app))
     = merged_content (markdown_results (window (session lsep_app)))
  /\ Py.contains LSEP (preview_text (window (session lsep_app))) = true
  /\ exists text,
       disk (click_save unit no_fault "merged.md" lsep_app) !! "merged.md"
         = Some text
       /\ text <> preview_text (window (session lsep_app))
       /\ Py.contains LSEP text = false.
Proof.
  split; [eexists _, tt, ∅; reflexivity|].
  repeat split; try (vm_compute; reflexivity).
  eexists. split; [vm_compute; reflexivity|].
  split; [vm_compute; discriminate | vm_compute; reflexivity].
Qed.

(** ** More on the derived file name *)

Lemma last_item_cons (x : string) (l : list string) :
  l <> [] -> last_item (x :: l) = last_item l.
Proof. unfold last_item. now destruct l. Qed.

Lemma split_http (r : string) :
  Py.split "://" ("http://" +:+ r) = "http" :: Py.split "://" r.
Proof.
  unfold Py.split. rewrite !append_String.
  change (EmptyString +:+ r) with r. cbn. now rewrite prefix_empty.
Qed.

Lemma split_https (r : string) :
  Py.split "://" ("https://" +:+ r) = "https" :: Py.split "://" r.
Proof.
  unfold Py.split. rewrite !append_String.
  change (EmptyString +:+ r) with r. cbn. now rewrite prefix_empty.
Qed.

(** X7. The name does not depend on which of the two accepted schemes the
    URL has: the [http] and the [https] URL of the same page get the same
    name. *)
Theorem name_ignores_scheme (r : string) :
  get_filename_from_url ("http://" +:+ r)
  = get_filename_from_url ("https://" +:+ r).
Proof.
  unfold get_filename_from_url.
  rewrite split_http, split_https.
  now rewrite !last_item_cons by apply split_go_nonempty.
Qed.

Lemma append_to_last_cons (x : string) (l : list string) (t : string) :
  l <> [] -> append_to_last (x :: l) t = x :: append_to_last l t.
Proof. now destruct l. Qed.

Lemma last_item_append_to_last (l : list string) (t : string) :
  l <> [] -> last_item (append_to_last l t) = last_item l +:+ t.
Proof.
  induction l as [|x l IH]; [done|]. intros _.
  destruct l as [|y l]; [reflexivity|].
  rewrite append_to_last_cons by discriminate.
  rewrite (last_item_cons x (append_to_last (y :: l) t)) by now destruct l.
  rewrite (last_item_cons x (y :: l)) by discriminate.
  now apply IH.
Qed.

(** A text that begins with a character other than the colon and the slash
    cannot complete an occurrence of [://] begun before it. *)
Lemma prefix_scheme_sep_tail (a : string) (c0 : ascii) (t : string) :
  c0 <> ":"%char -> c0 <> "/"%char ->
  String.prefix "://" (a +:+ String c0 t) = String.prefix "://" a.
Proof.
  intros Hc Hs.
  destruct a as [|c1 [|c2 [|c3 a]]]; rewrite ?append_String, ?append_nil_l;
    prefix_cases; reflexivity || congruence.
Qed.

Lemma split_no_occurrence (x : ascii) (sep' s : string) :
  Py.contains (String x sep') s = false -> Py.split (String x sep') s = [s].
Proof.
  intros H. now rewrite split_first, (contains_after_first _ _ H).
Qed.

(** Appending such a text, free of [://] itself, to a URL only lengthens
    the last piece of the split at [://]. *)
Lemma split_scheme_sep_tail (c0 : ascii) (t : string) :
  c0 <> ":"%char -> c0 <> "/"%char ->
  Py.contains "://" (String c0 t) = false ->
  forall (a : string) (k : nat), k <= String.length a ->
    Py.split_go "://" k (a +:+ String c0 t)
    = append_to_last (Py.split_go "://" k a) (String c0 t).
Proof.
  intros Hc Hs Hfree.
  induction a as [|c a IH]; intros k Hk.
  - cbn in Hk. assert (k = 0) as -> by lia.
    change (EmptyString +:+ String c0 t) with (String c0 t).
    change (Py.split_go "://" 0 (String c0 t)) with (Py.split "://" (String c0 t)).
    now rewrite split_no_occurrence.
  - rewrite append_String. destruct k as [|k].
    + cbn [Py.split_go].
      rewrite <- append_String, (prefix_scheme_sep_tail _ _ _ Hc Hs).
      destruct (String.prefix "://" (String c a)) eqn:P.
      * apply prefix_length in P. cbn in P.
        cbn [String.length Nat.pred].
        rewrite IH by lia.
        now rewrite append_to_last_cons by apply split_go_nonempty.
      * rewrite IH by lia.
        pose proof (split_go_nonempty "://" a 0) as Hne.
        destruct (Py.split_go "://" 0 a) as [|p [|q rest]]; [done|reflexivity|].
        reflexivity.
    + cbn [Py.split_go]. apply IH. cbn in Hk. lia.
Qed.

Lemma last_split_scheme_sep_tail (u : string) (c0 : ascii) (t : string) :
  c0 <> ":"%char -> c0 <> "/"%char ->
  Py.contains "://" t = false ->
  last_item (Py.split "://" (u +:+ String c0 t))
  = last_item (Py.split "://" u) +:+ String c0 t.
Proof.
  intros Hc Hs Hfree. unfold Py.split.
  rewrite (split_scheme_sep_tail c0 t Hc Hs); [| |lia].
  - apply last_item_append_to_last, split_go_nonempty.
  - cbn [Py.contains]. rewrite Hfree, orb_false_r.
    prefix_cases; reflexivity || congruence.
Qed.

(** The text before the first [c] is not changed by appending [c] and more. *)
Lemma before_first_tail (c : ascii) (x q : string) :
  Spec.before_first (Py.str1 c) (x +:+ String c q)
  = Spec.before_first (Py.str1 c) x.
Proof.
  induction x as [|d x IH].
  - rewrite append_nil_l. cbn [Spec.before_first]. rewrite prefix_str1.
    now destruct (ascii_dec c c).
  - rewrite append_String. cbn [Spec.before_first].
    rewrite !prefix_str1, IH. reflexivity.
Qed.

(** X8. The query string does not influence the name: appending [?] and a
    query that holds no [://] to any URL leaves the name as it was. *)
Theorem name_ignores_query (u q : string) :
  Py.contains "://" q = false ->
  get_filename_from_url (u +:+ "?" +:+ q) = get_filename_from_url u.
Proof.
  intros Hq. unfold get_filename_from_url.
  change ("?" +:+ q) with (String "?" q).
  rewrite (last_split_scheme_sep_tail u "?" q) by (discriminate || exact Hq).
  rewrite !split_head.
  change "?"%string with (Py.str1 "?").
  now rewrite before_first_tail.
Qed.

Lemma before_first_fragment_tail (x f : string) :
  Spec.before_first "#" (Spec.before_first "?" (x +:+ String "#" f))
  = Spec.before_first "#" (Spec.before_first "?" x).
Proof.
  change "#"%string with (Py.str1 "#"). change "?"%string with (Py.str1 "?").
  induction x as [|d x IH].
  - rewrite append_nil_l. cbn [Spec.before_first]. rewrite !prefix_str1.
    destruct (ascii_dec "?" "#"); [discriminate|].
    cbn [Spec.before_first]. rewrite prefix_str1.
    now destruct (ascii_dec "#" "#").
  - rewrite append_String. cbn [Spec.before_first]. rewrite !prefix_str1.
    destruct (ascii_dec "?" d); [reflexivity|].
    cbn [Spec.before_first]. rewrite !prefix_str1.
    destruct (ascii_dec "#" d); [reflexivity|]. now rewrite IH.
Qed.

(** X9. The fragment does not influence the name: appending [#] and a
    fragment that holds no [://] to any URL leaves the name as it was. *)
Theorem name_ignores_fragment (u f : string) :
  Py.contains "://" f = false ->
  get_filename_from_url (u +:+ "#" +:+ f) = get_filename_from_url u.
Proof.
  intros Hf. unfold get_filename_from_url.
  change ("#" +:+ f) with (String "#" f).
  rewrite (last_split_scheme_sep_tail u "#" f) by (discriminate || exact Hf).
  rewrite !split_head.
  now rewrite before_first_fragment_tail.
Qed.

Lemma clean_contains (c : ascii) (s : string) :
  In c illegal_chars -> clean s = true -> Py.contains (Py.str1 c) s = false.
Proof.
  intros Hc. induction s as [|d s IH]; [reflexivity|].
  cbn [clean Py.contains]. intros [Hd Hs]%andb_true_iff.
  rewrite (IH Hs), orb_false_r, prefix_str1.
  destruct (ascii_dec c d) as [<-|]; [|reflexivity].
  apply negb_true_iff in Hd. unfold is_illegal in Hd.
  assert (existsb (Ascii.eqb c) illegal_chars = true); [|congruence].
  apply existsb_exists. exists c. split; [exact Hc | apply Ascii.eqb_refl].
Qed.

(** X10. A derived name is never empty and holds none of the nine
    substituted characters, in particular neither slash nor backslash.
    (Its length is not bounded, so the file system can still refuse it.) *)
Theorem derived_name_nonempty_and_clean (u : string) :
  get_filename_from_url u <> EmptyString
  /\ forall c, In c illegal_chars ->
       Py.contains (Py.str1 c) (get_filename_from_url u) = false.
Proof.
  split.
  - unfold get_filename_from_url.
    match goal with
    | |- context [if is_empty ?n then _ else _] => destruct n eqn:E
    end; cbn; discriminate.
  - intros c Hc. apply clean_contains; [exact Hc|].
    apply get_filename_from_url_clean.
Qed.

Lemma name_ignores_query_witness :
  get_filename_from_url ("https://example.com/docs/guide.html" +:+ "?" +:+ "lang=en")
  = get_filename_from_url "https://example.com/docs/guide.html".
Proof. exact (name_ignores_query _ "lang=en" eq_refl). Defined.

Lemma name_ignores_fragment_witness :
  get_filename_from_url ("https://example.com/docs/guide.html" +:+ "#" +:+ "intro")
  = get_filename_from_url "https://example.com/docs/guide.html".
Proof. exact (name_ignores_fragment _ "intro" eq_refl). Defined.

(** ** More on saving *)

Section SaveFacts.

Variable fault : gmap string string -> string -> option Fault.

Lemma all_written (new : list Write) :
  Forall (fun w => w_ok w = true) new ->
  List.filter w_ok new = new /\ written new = length new.
Proof.
  unfold written. induction 1 as [|w new Hw _ [IH1 IH2]]; [done|].
  cbn [List.filter]. rewrite Hw, IH1. done.
Qed.

(** A split save in numbers and names, whatever fails. *)
Lemma split_save_summary (win : MarkdownMerger) (files : gmap string string)
    (folder : string) :
  markdown_results win <> [] -> merge_radio win = false ->
  folder <> EmptyString ->
  exists saved,
    save_markdown fault folder win files = Some saved
    /\ saved_window saved
       = match uncaught saved with
         | Some _ => win
         | None =>
             show_box
               (information "完成"
                  (split_tally (written (writes saved))
                     (length (markdown_results win)) folder))
               win
         end
    /\ (forall p, is_Some (files !! p) -> saved_files saved !! p = files !! p)
    /\ (forall w, w ∈ writes saved -> files !! w_path w = None)
    /\ NoDup (map w_path (List.filter w_ok (writes saved)))
    /\ size files + written (writes saved) <= size (saved_files saved)
       <= size files + length (writes saved)
    /\ written (writes saved) + length (printed saved) = length (writes saved)
    /\ exists done skipped,
         List.filter success (markdown_results win) = done ++ skipped
         /\ map w_data (writes saved) = map split_data done
         /\ (uncaught saved = None <-> skipped = []).
Proof.
  intros Hres Hmode Hfolder.
  destruct (save_markdown_split fault win files folder Hres Hmode Hfolder)
    as (c' & files' & out' & new & u & Hrun & ->).
  destruct (save_split_loop_spec fault folder (markdown_results win) 0 files [] [])
    as (c2 & files2 & out2 & new2 & u2 & Hrun2 & Hsplit & Hc & Hkeep & _ & Hnew & _).
  destruct (save_split_loop_counts fault folder (markdown_results win) 0 files [] [])
    as (c3 & files3 & out3 & new3 & u3 & lines & Hrun3 & Hout & Hlen & Hnd & Hsize & _).
  rewrite Hrun in Hrun2, Hrun3. cbn [app] in Hrun2, Hrun3, Hout.
  injection Hrun2 as -> -> -> -> ->. injection Hrun3 as <- <- <- <- <-.
  eexists. split; [reflexivity|].
  cbn [saved_window saved_files writes printed uncaught].
  cbn in Hc. subst c2 out2.
  repeat split; try assumption; try lia.
Qed.


(** X13. A merged save that fails is reported and changes no other file:
    the window shows the error box with the text of the exception and no
    success box; when [open] itself failed no file is changed at all. *)
Theorem merged_save_failure_reported (win : MarkdownMerger)
    (files : gmap string string) (chosen : string) (flt : Fault) :
  markdown_results win <> [] -> merge_radio win = true ->
  chosen <> EmptyString ->
  fault files chosen = Some flt ->
  exists saved,
    save_markdown fault chosen win files = Some saved
    /\ message_boxes (saved_window saved)
       = message_boxes win
         ++ [critical "错误" ("保存失败:" +:+ Py.LF +:+ fault_text flt)]
    /\ (forall p, p <> chosen -> saved_files saved !! p = files !! p)
    /\ (forall e, flt = open_fails e -> saved_files saved = files).
Proof.
  intros Hres Hmode Hchosen Hflt. unfold save_markdown.
  destruct (markdown_results win) as [|r rs]; [done|].
  rewrite Hmode, (is_empty_false chosen Hchosen). unfold write_file.
  rewrite Hflt. destruct flt as [e|e|e n]; eexists;
    (split; [reflexivity|]); cbn; repeat split; try done.
  intros p Hp. now rewrite lookup_insert_ne.
Qed.

(** X11. The writes of a split save that completed went to pairwise
    different paths, all new, and the folder gained a file for each.  When
    the save reaches its message box (no existence test raised) and every
    write it tried completed, each result with [success = true] has a file
    of its own: the folder gained exactly that many files, nothing was
    printed, and the tally counts them all. *)
Theorem split_save_one_file_per_completed_write (win : MarkdownMerger)
    (files : gmap string string) (folder : string) :
  markdown_results win <> [] -> merge_radio win = false ->
  folder <> EmptyString ->
  exists saved,
    save_markdown fault folder win files = Some saved
    /\ NoDup (map w_path (List.filter w_ok (writes saved)))
    /\ (forall w, w ∈ writes saved -> files !! w_path w = None)
    /\ size files + written (writes saved) <= size (saved_files saved)
    /\ (uncaught saved = None ->
        Forall (fun w => w_ok w = true) (writes saved) ->
        length (writes saved)
        = length (List.filter success (markdown_results win))
        /\ NoDup (map w_path (writes saved))
        /\ size (saved_files saved)
           = size files + length (List.filter success (markdown_results win))
        /\ printed saved = []
        /\ message_boxes (saved_window saved)
           = message_boxes win
             ++ [information "完成"
                   (split_tally
                      (length (List.filter success (markdown_results win)))
                      (length (markdown_results win)) folder)]).
Proof.
  intros Hres Hmode Hfolder.
  destruct (split_save_summary win files folder Hres Hmode Hfolder)
    as (saved & Hs & Hwin & _ & Hnew & Hnd & Hsize & Hacc
        & done & skipped & Hf & Hdata & Hu).
  exists saved. split; [exact Hs|]. split; [exact Hnd|].
  split; [exact Hnew|]. split; [lia|].
  intros Hnone Hall. destruct (all_written _ Hall) as [Hfil Hwr].
  apply (f_equal (@length _)) in Hdata. rewrite !length_map in Hdata.
  rewrite Hfil in Hnd. rewrite Hwr in *. rewrite Hwin, Hnone.
  apply Hu in Hnone as ->. rewrite app_nil_r in Hf. rewrite Hf, <- Hdata.
  split; [reflexivity|]. split; [exact Hnd|]. split; [lia|].
  split; [|reflexivity].
  destruct (printed saved); [reflexivity | cbn in Hacc; lia].
Qed.

(** X16. Saving the same batch a second time into the same folder writes
    over nothing, whatever fails: every file that was there after the first
    save keeps its text.  When both saves reach their message box and every
    write they tried completed, the folder has gained two files per
    successful result. *)
Theorem split_save_twice_keeps_first_files (win : MarkdownMerger)
    (files : gmap string string) (folder : string) :
  markdown_results win <> [] -> merge_radio win = false ->
  folder <> EmptyString ->
  exists first second,
    save_markdown fault folder win files = Some first
    /\ save_markdown fault folder (saved_window first) (saved_files first)
       = Some second
    /\ (forall p, is_Some (saved_files first !! p) ->
          saved_files second !! p = saved_files first !! p)
    /\ (uncaught first = None -> uncaught second = None ->
        Forall (fun w => w_ok w = true) (writes first) ->
        Forall (fun w => w_ok w = true) (writes second) ->
        size (saved_files second)
        = size files
          + 2 * length (List.filter success (markdown_results win))).
Proof.
  intros Hres Hmode Hfolder.
  destruct (split_save_summary win files folder Hres Hmode Hfolder)
    as (first & Hs1 & Hwin1 & _ & _ & _ & Hsize1 & _
        & done1 & skipped1 & Hf1 & Hdata1 & Hu1).
  assert (Hsame : markdown_results (saved_window first) = markdown_results win
                  /\ merge_radio (saved_window first) = merge_radio win).
  { rewrite Hwin1. now destruct (uncaught first). }
  destruct Hsame as [Hres1 Hmode1].
  destruct (split_save_summary (saved_window first) (saved_files first) folder)
    as (second & Hs2 & _ & Hkeep2 & _ & _ & Hsize2 & _
        & done2 & skipped2 & Hf2 & Hdata2 & Hu2);
    [now rewrite Hres1 | now rewrite Hmode1 | exact Hfolder |].
  exists first, second. split; [exact Hs1|]. split; [exact Hs2|].
  split; [exact Hkeep2|].
  intros Hn1 Hn2 Hall1 Hall2.
  destruct (all_written _ Hall1) as [_ Hwr1].
  destruct (all_written _ Hall2) as [_ Hwr2].
  apply (f_equal (@length _)) in Hdata1, Hdata2.
  rewrite !length_map in Hdata1, Hdata2.
  apply Hu1 in Hn1 as ->. apply Hu2 in Hn2 as ->.
  rewrite app_nil_r in Hf1, Hf2. rewrite Hres1 in Hf2.
  rewrite Hf1. rewrite Hf1 in Hf2. subst done2. lia.
Qed.

End SaveFacts.

Lemma split_save_one_file_per_completed_write_witness :
  exists saved,
    save_markdown no_fault "out" (split_radio_clicked (window_with same_name_batch)) ∅
      = Some saved
    /\ NoDup (map w_path (writes saved))
    /\ size (saved_files saved) = 2
    /\ printed saved = [].
Proof.
  destruct (split_save_one_file_per_completed_write no_fault
              (split_radio_clicked (window_with same_name_batch)) ∅ "out"
              ltac:(discriminate) eq_refl ltac:(discriminate))
    as (saved & Hs & _ & _ & _ & Hall).
  assert (Hu : uncaught saved = None)
    by (vm_compute in Hs; now injection Hs as <-).
  assert (Hok : Forall (fun w => w_ok w = true) (writes saved))
    by (vm_compute in Hs; injection Hs as <-; now repeat constructor).
  destruct (Hall Hu Hok) as (_ & Hnd & Hsize & Hpr & _).
  exists saved. repeat split; assumption.
Defined.


Lemma merged_save_failure_reported_witness :
  exists saved,
    save_markdown always_open_fails "merged.md" (window_with example_batch) ∅
      = Some saved
    /\ message_boxes (saved_window saved)
       = [critical "错误" ("保存失败:" +:+ Py.LF +:+ "Permission denied")]
    /\ saved_files saved = ∅.
Proof.
  destruct (merged_save_failure_reported always_open_fails
              (window_with example_batch) ∅ "merged.md"
              (open_fails "Permission denied")
              ltac:(discriminate) eq_refl ltac:(discriminate) eq_refl)
    as (saved & Hs & Hm & _ & Hf).
  exists saved. split; [exact Hs|]. split; [exact Hm | exact (Hf _ eq_refl)].
Defined.

Lemma split_save_twice_keeps_first_files_witness :
  exists first second,
    save_markdown no_fault "out" (split_radio_clicked (window_with same_name_batch)) ∅
      = Some first
    /\ save_markdown no_fault "out" (saved_window first) (saved_files first)
       = Some second
    /\ size (saved_files second) = 4.
Proof.
  destruct (split_save_twice_keeps_first_files no_fault
              (split_radio_clicked (window_with same_name_batch)) ∅ "out"
              ltac:(discriminate) eq_refl ltac:(discriminate))
    as (first & second & H1 & H2 & _ & Hsize).
  exists first, second. split; [exact H1|]. split; [exact H2|].
  vm_compute in H1. injection H1 as <-.
  vm_compute in H2. injection H2 as <-.
  apply Hsize; try reflexivity; now repeat constructor.
Defined.

(** ** More on the handlers *)

Section HandlerFacts.

Variable World : Type.
Variable fault : gmap string string -> string -> option Fault.

Lemma valid_scheme_not_empty (u : string) :
  valid_scheme u = true -> is_empty u = false.
Proof. now destruct u. Qed.

(** X17. Adding a URL and then removing the last row gives back the list
    and the list widget as they were. *)
Theorem add_then_remove_last_restores (s : Session World) (l : list string)
    (u : string) :
  store s !! url_list (window s) = Some l ->
  url_list_widget (window s) = l ->
  valid_scheme u = true ->
  deref (store (remove_url World (Z.of_nat (length l)) (add_url World u s)))
        (url_list (window (remove_url World (Z.of_nat (length l))
                             (add_url World u s))))
    = l
  /\ url_list_widget (window (remove_url World (Z.of_nat (length l))
                                (add_url World u s)))
     = l.
Proof.
  intros Hl Hw Hu.
  assert (Hadd : add_url World u s
                 = mkSession (<[url_list (window s) := l ++ [u]]> (store s))
                     (show_message ("已添加: " +:+ u)
                        (set_url_list_widget (l ++ [u]) (window s)))
                     (fetch_thread s) (world s)).
  { unfold add_url. rewrite (valid_scheme_not_empty u Hu).
    unfold valid_scheme in Hu. now rewrite Hu, (deref_lookup _ _ _ Hl), Hw. }
  rewrite Hadd. clear Hadd. unfold remove_url.
  replace (0 <=? Z.of_nat (length l))%Z with true by (symmetry; apply Z.leb_le; lia).
  cbn [window store set_url_list_widget show_message url_list url_list_widget].
  assert (Hd : deref (<[url_list (window s) := l ++ [u]]> (store s))
                 (url_list (window s)) = l ++ [u])
    by apply deref_lookup, lookup_insert_eq.
  rewrite Hd, Nat2Z.id. unfold pop.
  replace (length l <? length (l ++ [u])) with true
    by (symmetry; apply Nat.ltb_lt; rewrite length_app; cbn; lia).
  cbn [window store set_url_list_widget url_list url_list_widget].
  rewrite delete_middle, app_nil_r.
  split; [|reflexivity].
  apply deref_lookup, lookup_insert_eq.
Qed.

(** X18. After [clear_urls] a click on the fetch button starts nothing:
    the list is empty, the thread and the count of delivered signals are as
    before, and if the button was enabled the warning box is shown. *)
Theorem clear_then_fetch_starts_nothing (a : App World) :
  current_urls World (click_fetch World (on_session World (clear_urls World) a))
    = []
  /\ fetch_thread (session (click_fetch World
                              (on_session World (clear_urls World) a)))
     = fetch_thread (session a)
  /\ delivered (click_fetch World (on_session World (clear_urls World) a))
     = delivered a
  /\ message_boxes (window (session (click_fetch World
                                       (on_session World (clear_urls World) a))))
     = message_boxes (window (session a))
       ++ (if fetch_btn (window (session a))
           then [warning "提示" "请先添加URL"] else []).
Proof.
  unfold click_fetch, on_session, clear_urls, current_urls.
  cbn [session window delivered disk set_url_list_widget fetch_btn url_list store].
  assert (Hd : forall st r, deref (<[r := []]> st) r = []).
  { intros st r. apply deref_lookup, lookup_insert_eq. }
  destruct (fetch_btn (window (session a))).
  - unfold start_fetch.
    cbn [session window delivered store fetch_thread set_url_list_widget url_list
         with_window show_box message_boxes].
    rewrite !Hd.
    cbn [session window delivered store fetch_thread set_url_list_widget url_list
         with_window show_box message_boxes].
    rewrite !Hd. repeat split.
  - cbn [session window delivered store fetch_thread set_url_list_widget url_list
         message_boxes].
    rewrite Hd, app_nil_r. repeat split.
Qed.

Lemma click_save_cancelled (a : App World) :
  click_save World fault EmptyString a = a.
Proof.
  destruct a as [[st win th w] d files]. unfold click_save.
  cbn [session window disk delivered].
  destruct (save_btn win); [|reflexivity].
  unfold save_markdown.
  destruct (markdown_results win); [reflexivity|].
  now destruct (merge_radio win).
Qed.

(** X14. A save whose dialog was cancelled changes nothing, in either
    mode: no file, no message box, no other part of the application. *)
Theorem cancelled_save_changes_nothing (a : App World) :
  click_save World fault EmptyString a = a.
Proof. apply click_save_cancelled. Qed.

(** X15. A merged save can be repeated: saving again to the same path,
    when the write succeeds, leaves the files exactly as the first save
    left them. *)
Theorem merged_save_is_idempotent (a : App World) (chosen : string) :
  merge_radio (window (session a)) = true ->
  (forall files, fault files chosen = None) ->
  disk (click_save World fault chosen (click_save World fault chosen a))
  = disk (click_save World fault chosen a).
Proof.
  intros Hmode Hok.
  destruct chosen as [|c ch]; [now rewrite !click_save_cancelled|].
  destruct a as [[st win th w] d files].
  cbn [session window] in Hmode. unfold click_save.
  cbn [session window disk delivered].
  destruct (save_btn win) eqn:Hbtn;
    [|cbn [session window disk]; now rewrite Hbtn].
  unfold save_markdown. rewrite Hmode. cbn [is_empty].
  destruct (markdown_results win) as [|r rs] eqn:Hres.
  - cbn [session window disk with_window saved_window saved_files].
    now rewrite Hbtn, Hres.
  - unfold write_file. rewrite Hok.
    cbn [session window disk with_window saved_window saved_files show_box
         save_btn markdown_results merge_radio preview_text].
    rewrite Hbtn, Hres, Hmode, Hok.
    cbn [saved_files disk]. apply insert_insert_eq.
Qed.

End HandlerFacts.

Lemma add_then_remove_last_restores_witness :
  deref (store (remove_url unit 2 (add_url unit "https://later.test/" two_url_session)))
        (url_list (window (remove_url unit 2
                             (add_url unit "https://later.test/" two_url_session))))
  = two_urls.
Proof.
  exact (proj1 (add_then_remove_last_restores unit two_url_session two_urls
                  "https://later.test/" eq_refl eq_refl eq_refl)).
Defined.

Lemma merged_save_is_idempotent_witness :
  disk (click_save unit no_fault "merged.md"
          (click_save unit no_fault "merged.md" (example_app full_cycle)))
  = disk (click_save unit no_fault "merged.md" (example_app full_cycle)).
Proof.
  exact (merged_save_is_idempotent unit no_fault (example_app full_cycle)
           "merged.md" eq_refl (fun _ => eq_refl)).
Defined.

(** ** More on the worker *)

Section RunFacts.

Variable World : Type.
Variable requests_get : string -> World -> Outcome Response * World.
Variable raise_for_status : Response -> option string.
Variable handle : string -> World -> Outcome string * World.

(** X19. Batches compose: fetching a list that is two lists one after the
    other gives the results of the first followed by the results of the
    second, the second fetched in the world the first batch left behind. *)
Theorem run_results_app (l1 l2 : list string) (w : World) :
  run_results World requests_get raise_for_status handle (l1 ++ l2) w
  = run_results World requests_get raise_for_status handle l1 w
    ++ run_results World requests_get raise_for_status handle l2
         (run World requests_get raise_for_status handle l1 w).2
  /\ (run World requests_get raise_for_status handle (l1 ++ l2) w).2
     = (run World requests_get raise_for_status handle l2
          (run World requests_get raise_for_status handle l1 w).2).2.
Proof.
  rewrite !run_results_batch, !run_unfold. cbn [snd]. split.
  - apply batch_app.
  - apply world_after_app.
Qed.

(** X20. The [success] field tells whether the [try] body returned: the
    result at position [i] has [success = true] exactly when fetching and
    converting the URL at [i] raised nothing, and then its content is the
    Markdown text the converter returned. *)
Theorem success_iff_try_body_returned (l : list string) (w : World)
    (i : nat) (u : string) :
  l !! i = Some u ->
  exists r,
    run_results World requests_get raise_for_status handle l w !! i = Some r
    /\ url r = u
    /\ (success r = true <->
        exists md,
          (try_body World requests_get raise_for_status handle u
             (world_at World requests_get raise_for_status handle l i w)).1
          = Returned md)
    /\ (forall md,
          (try_body World requests_get raise_for_status handle u
             (world_at World requests_get raise_for_status handle l i w)).1
          = Returned md ->
          r = mkResult u md true).
Proof.
  intros Hi. eexists.
  rewrite run_results_batch, (batch_lookup _ _ _ _ l i u w Hi), world_at_after.
  split; [reflexivity|]. unfold fetch_one.
  destruct (try_body World requests_get raise_for_status handle u _)
    as [[md|e] w']; cbn.
  - split; [reflexivity|]. split; [split; eauto|].
    now intros md' [= <-].
  - split; [reflexivity|]. split; [split; [discriminate|intros [md [=]]]|].
    intros md' [=].
Qed.

End RunFacts.

Lemma success_iff_try_body_returned_witness :
  exists r,
    run_results unit (test_get 404) (requests_raise_for_status test_msg)
      test_handle two_urls tt !! 0 = Some r
    /\ r = mkResult "https://ok.test/a" "<p>hello</p>" true.
Proof.
  destruct (success_iff_try_body_returned unit (test_get 404)
              (requests_raise_for_status test_msg) test_handle two_urls tt 0
              "https://ok.test/a" eq_refl) as (r & Hr & _ & _ & Hmd).
  exists r. split; [exact Hr | exact (Hmd _ eq_refl)].
Defined.
